(** * Schwab diagonal-spread scanner: a shallow embedding and its properties

    The program under study is [projects/Schwab_API_Diagonal_Spread_Scanner.py],
    a single Python script.  It computes four dates relative to today, reads a
    list of tickers, and for every ticker fetches two option chains (a
    short-term one and a long-term one), picks a last-traded price out of each
    decoded JSON body, divides the long-term price by the short-term price and
    appends a row to a table, which is finally sorted by that ratio.

    The embedding follows the script line by line:
    - decoded JSON bodies are Python values ([value]);
    - Python exceptions are the [Raise] branch of [result];
    - the three nested [for] loops with their [break]s are three fixpoints
      that thread the variable [week_last_price] / [year_last_price];
    - the ticker loop threads the table [results_df] and what was printed. *)

From Stdlib Require Import ZArith List String Ascii Bool Floats Lia.
From Stdlib Require Import Permutation Sorted.
Import ListNotations.

Local Open Scope string_scope.
Local Open Scope list_scope.
Local Open Scope Z_scope.

Set Warnings "-register-all".

(** ** Python values and exceptions *)

(** The values [response.json()] can produce.  A JSON number with a
    fraction or an exponent is a Python [float], an IEEE double ([VNum]); an
    integer literal is a Python [int], of any size ([VInt]).  A [dict] keeps
    its items in insertion order. *)
Inductive value : Type :=
| VNone
| VBool (b : bool)
| VInt (n : Z)
| VNum (x : float)
| VStr (s : string)
| VList (l : list value)
| VDict (items : list (string * value)).

(** The exceptions the script can die of (it has no [try]). *)
Inductive exn : Type :=
| AttributeError
| TypeError
| KeyError
| ZeroDivisionError
| OverflowError
| JSONDecodeError
| ConnectionError.

Inductive result (A : Type) : Type :=
| Ok (a : A)
| Raise (e : exn).

Arguments Ok {A} a.
Arguments Raise {A} e.

Definition bind {A B : Type} (m : result A) (k : A -> result B) : result B :=
  match m with
  | Ok a => k a
  | Raise e => Raise e
  end.

Notation "x <- m ;; k" := (bind m (fun x => k))
  (at level 61, m at next level, right associativity).

Definition result_map {A B : Type} (f : A -> B) (m : result A) : result B :=
  match m with
  | Ok a => Ok (f a)
  | Raise e => Raise e
  end.

Module Py.

(** [d[k]] on the items of a dict, [None] when the key is missing. *)
Fixpoint lookup (k : string) (items : list (string * value)) : option value :=
  match items with
  | [] => None
  | (k', v) :: items' => if String.eqb k k' then Some v else lookup k items'
  end.

(** [x.get(k, {})] *)
Definition get (x : value) (k : string) : result value :=
  match x with
  | VDict items =>
      match lookup k items with
      | Some v => Ok v
      | None => Ok (VDict [])
      end
  | _ => Raise AttributeError
  end.

(** [x.items()] *)
Definition items (x : value) : result (list (string * value)) :=
  match x with
  | VDict kvs => Ok kvs
  | _ => Raise AttributeError
  end.

Fixpoint chars (s : string) : list value :=
  match s with
  | EmptyString => []
  | String c s' => VStr (String c EmptyString) :: chars s'
  end.

(** The elements [for o in x] runs through: the elements of a list, the
    keys of a dict, the characters of a string. *)
Definition iter (x : value) : result (list value) :=
  match x with
  | VList l => Ok l
  | VDict kvs => Ok (map (fun kv => VStr (fst kv)) kvs)
  | VStr s => Ok (chars s)
  | _ => Raise TypeError
  end.

(** [k == v] for a string [k]. *)
Definition str_eq (k : string) (v : value) : bool :=
  match v with
  | VStr s => String.eqb k s
  | _ => false
  end.

(** [k in s] for two strings: [k] occurs in [s]. *)
Definition substring_of (k s : string) : bool :=
  match String.index 0 k s with
  | Some _ => true
  | None => false
  end.

(** [k in x], for a string [k]. *)
Definition contains (k : string) (x : value) : result bool :=
  match x with
  | VDict kvs =>
      Ok (match lookup k kvs with Some _ => true | None => false end)
  | VList l => Ok (existsb (str_eq k) l)
  | VStr s => Ok (substring_of k s)
  | _ => Raise TypeError
  end.

(** [x[k]], for a string [k]. *)
Definition getitem (x : value) (k : string) : result value :=
  match x with
  | VDict kvs =>
      match lookup k kvs with
      | Some v => Ok v
      | None => Raise KeyError
      end
  | _ => Raise TypeError
  end.

(** [x is not None] *)
Definition is_not_None (x : value) : bool :=
  match x with
  | VNone => false
  | _ => true
  end.

(** [bool(x)] *)
Definition truthy (x : value) : bool :=
  match x with
  | VNone => false
  | VBool b => b
  | VInt n => negb (n =? 0)
  | VNum f => negb (PrimFloat.eqb f 0%float)
  | VStr s => negb (String.eqb s EmptyString)
  | VList l => match l with [] => false | _ => true end
  | VDict kvs => match kvs with [] => false | _ => true end
  end.

(** A number in arithmetic: an [int] (a [bool] is one, [True] is 1) or a
    [float]. *)
Inductive number : Type :=
| NInt (n : Z)
| NFloat (x : float).

Definition as_number (x : value) : option number :=
  match x with
  | VBool b => Some (NInt (if b then 1 else 0))
  | VInt n => Some (NInt n)
  | VNum f => Some (NFloat f)
  | _ => None
  end.

(** An [int] below 2^53 in magnitude is a double as it is. *)
Definition fits_double (n : Z) : bool := Z.abs n <? 9007199254740992.

(** [n] rounded to the nearest double, ties to even. *)
Definition nearest_double (n : Z) : spec_float :=
  binary_normalize prec emax n 0 false.

Definition exact_float (n : Z) : float := SF2Prim (nearest_double n).

(** [float(n)], the conversion an [int] undergoes when the other operand is
    a [float]: the nearest double, or [OverflowError] ("int too large to
    convert to float") when that is beyond the doubles. *)
Definition float_of_int (n : Z) : result float :=
  if fits_double n then Ok (exact_float n)
  else
    match nearest_double n with
    | S754_infinity _ => Raise OverflowError
    | sf => Ok (SF2Prim sf)
    end.

Definition spec_of_int (n : Z) : spec_float :=
  match n with
  | Z0 => S754_zero false
  | Zpos p => S754_finite false p 0
  | Zneg p => S754_finite true p 0
  end.

(** [m / n] on two [int]s: the quotient rounded once to the nearest double
    (for operands below 2^53 that is the division of the two doubles), or
    [OverflowError] ("integer division result too large for a float"). *)
Definition int_truediv (m n : Z) : result float :=
  if n =? 0 then Raise ZeroDivisionError
  else if fits_double m && fits_double n then
    Ok (PrimFloat.div (exact_float m) (exact_float n))
  else
    match SFdiv prec emax (spec_of_int m) (spec_of_int n) with
    | S754_infinity _ => Raise OverflowError
    | sf => Ok (SF2Prim sf)
    end.

Definition to_float (m : number) : result float :=
  match m with
  | NInt n => float_of_int n
  | NFloat x => Ok x
  end.

Definition is_zero (m : number) : bool :=
  match m with
  | NInt n => n =? 0
  | NFloat x => PrimFloat.eqb x 0%float
  end.

(** The double a number is, when it is one as it stands: a [float], or an
    [int] below 2^53 in magnitude. *)
Definition as_float (x : value) : option float :=
  match as_number x with
  | Some (NFloat f) => Some f
  | Some (NInt n) => if fits_double n then Some (exact_float n) else None
  | None => None
  end.

(** [a / b]: between two [int]s the division of [int]; otherwise both
    operands are made [float]s, the left one first, and divided as doubles;
    [TypeError] when an operand is no number. *)
Definition truediv (a b : value) : result float :=
  match as_number a, as_number b with
  | Some (NInt m), Some (NInt n) => int_truediv m n
  | Some m, Some n =>
      x <- to_float m ;;
      y <- to_float n ;;
      if is_zero n then Raise ZeroDivisionError
      else Ok (PrimFloat.div x y)
  | _, _ => Raise TypeError
  end.

Definition upper_ascii (c : ascii) : ascii :=
  let n := nat_of_ascii c in
  if (Nat.leb 97 n && Nat.leb n 122)%bool then ascii_of_nat (n - 32) else c.

(** [s.upper()], on ASCII text. *)
Fixpoint upper (s : string) : string :=
  match s with
  | EmptyString => EmptyString
  | String c s' => String (upper_ascii c) (upper s')
  end.

End Py.

(** ** The quote extractor (script lines 89-98 and 109-118)

    The two blocks differ only in the name of the variable they assign
    ([week_last_price], [year_last_price]); one definition serves both.
    The variable is threaded through the loops as [price]. *)

(** [for option in options_list: if "last" in option: price = option["last"]; break] *)
Fixpoint scan_options (options_list : list value) (price : value) : result value :=
  match options_list with
  | [] => Ok price
  | option :: rest =>
      has_last <- Py.contains "last" option ;;
      if has_last then Py.getitem option "last"
      else scan_options rest price
  end.

(** [for strike_key, options_list in strikes.items(): ...]; the loop body has
    no [break] of its own, so every strike is visited. *)
Fixpoint scan_strikes (strikes : list (string * value)) (price : value) : result value :=
  match strikes with
  | [] => Ok price
  | (strike_key, options_list) :: rest =>
      options <- Py.iter options_list ;;
      price' <- scan_options options price ;;
      scan_strikes rest price'
  end.

(** [for exp_date_key, strikes in call_exp_date_map.items(): ...;
     if price is not None: break] *)
Fixpoint scan_expirations (call_exp_date_map : list (string * value)) (price : value)
  : result value :=
  match call_exp_date_map with
  | [] => Ok price
  | (exp_date_key, strikes) :: rest =>
      strike_items <- Py.items strikes ;;
      price' <- scan_strikes strike_items price ;;
      if Py.is_not_None price' then Ok price'
      else scan_expirations rest price'
  end.

(** [price = None; call_exp_date_map = response_data.get("callExpDateMap", {}); ...] *)
Definition extract_last_price (response_data : value) : result value :=
  call_exp_date_map <- Py.get response_data "callExpDateMap" ;;
  exp_items <- Py.items call_exp_date_map ;;
  scan_expirations exp_items VNone.

(** ** The date windows (script lines 29-38)

    A date is its proleptic Gregorian ordinal, as [date.toordinal()] gives it:
    1 is 0001-01-01 and [MAXORDINAL] is 9999-12-31.  The script formats each
    date with [strftime('%Y-%m-%d')] afterwards; the formatting is not part of
    this model, the loop below takes the four formatted strings as they are. *)
Module Dates.

Definition MAXORDINAL : Z := 3652059.

(** [d + timedelta(days=n)]: the sum, or [OverflowError] outside the
    calendar. *)
Definition add_days (d n : Z) : result Z :=
  let o := d + n in
  if (1 <=? o) && (o <=? MAXORDINAL) then Ok o else Raise OverflowError.

Definition one_week_date (today : Z) : result Z := add_days today 6.
Definition one_week_date2 (today : Z) : result Z := add_days today 11.
Definition one_year_date (today : Z) : result Z := add_days today 330.
Definition one_year_date2 (today : Z) : result Z := add_days today 600.

(** A window is the pair (fromDate, toDate) a request is made with. *)
Definition window : Type := (Z * Z)%type.

(** Lines 33-38 in order, every line reading the same date [today]. *)
Definition compute_windows (today : Z) : result (window * window) :=
  a <- one_week_date today ;;
  b <- one_week_date2 today ;;
  c <- one_year_date today ;;
  d <- one_year_date2 today ;;
  Ok ((a, b), (c, d)).

End Dates.

(** ** The ticker loop (script lines 65-133) *)

(** What [requests.get] returns: the status code and what [response.json()]
    gives when called (it raises on a body that is not JSON). *)
Record response : Type := {
  status_code : Z;
  json : result value
}.

(** What the loop reads from outside: the four formatted dates and the
    provider, a function of the URL requested. *)
Record env : Type := {
  one_week_date : string;
  one_week_date2 : string;
  one_year_date : string;
  one_year_date2 : string;
  requests_get : string -> result response
}.

Definition short_term_URL (E : env) (ticker : string) : string :=
  "https://api.schwabapi.com/marketdata/v1/chains?symbol=" ++ ticker
  ++ "&contractType=CALL&strikeCount=1&fromDate=" ++ one_week_date E
  ++ "&toDate=" ++ one_week_date2 E.

Definition long_term_URL (E : env) (ticker : string) : string :=
  "https://api.schwabapi.com/marketdata/v1/chains?symbol=" ++ ticker
  ++ "&contractType=CALL&strikeCount=1&fromDate=" ++ one_year_date E
  ++ "&toDate=" ++ one_year_date2 E.

(** A row of [results_df]. *)
Record row : Type := {
  Ticker : string;
  Week_Last_Price : value;
  Year_Last_Price : value;
  Spread_Ratio : float
}.

(** The lines the loop prints:
    "Short-term request failed for T with status code N",
    "Long-term request failed for T with status code N",
    "Could not calculate spread ratio for T due to missing data". *)
Inductive line : Type :=
| Short_term_request_failed (ticker : string) (status : Z)
| Long_term_request_failed (ticker : string) (status : Z)
| Could_not_calculate (ticker : string).

Record state : Type := {
  results_df : list row;
  stdout : list line
}.

Definition print (l : line) (st : state) : state :=
  {| results_df := results_df st; stdout := stdout st ++ [l] |}.

(** [results_df = pd.concat([results_df, temp_df], ignore_index=True)] *)
Definition concat (r : row) (st : state) : state :=
  {| results_df := results_df st ++ [r]; stdout := stdout st |}.

(** Lines 120-122: [if week_last_price and year_last_price:
    spread_ratio = year_last_price / week_last_price]; [None] stands for the
    [else] branch, where no ratio is computed. *)
Definition spread_ratio (week_last_price year_last_price : value) : result (option float) :=
  if Py.truthy week_last_price && Py.truthy year_last_price then
    r <- Py.truediv year_last_price week_last_price ;;
    Ok (Some r)
  else Ok None.

(** One iteration of the loop over [tickers]. *)
Definition process_ticker (E : env) (ticker : value) (st : state) : result state :=
  match ticker with
  | VStr s =>
      let ticker := Py.upper s in
      response <- requests_get E (short_term_URL E ticker) ;;
      if status_code response =? 200 then
        response_data <- json response ;;
        week_last_price <- extract_last_price response_data ;;
        response <- requests_get E (long_term_URL E ticker) ;;
        if status_code response =? 200 then
          response_data <- json response ;;
          year_last_price <- extract_last_price response_data ;;
          ratio <- spread_ratio week_last_price year_last_price ;;
          match ratio with
          | Some r =>
              Ok (concat {| Ticker := ticker;
                            Week_Last_Price := week_last_price;
                            Year_Last_Price := year_last_price;
                            Spread_Ratio := r |} st)
          | None => Ok (print (Could_not_calculate ticker) st)
          end
        else Ok (print (Long_term_request_failed ticker (status_code response)) st)
      else Ok (print (Short_term_request_failed ticker (status_code response)) st)
  | _ => Ok st
  end.

(** [for ticker in tqdm(tickers, ...): ...] *)
Fixpoint scan (E : env) (tickers : list value) (st : state) : result state :=
  match tickers with
  | [] => Ok st
  | ticker :: rest =>
      st' <- process_ticker E ticker st ;;
      scan E rest st'
  end.

Definition empty_state : state := {| results_df := []; stdout := [] |}.

(** ** The final sort (script line 136) *)

(** The order [sort_values(by='Spread_Ratio', ascending=True)] puts the keys
    in: ascending, with NaN after everything else ([na_position='last']). *)
Definition ratio_le (a b : float) : bool :=
  PrimFloat.is_nan b || (negb (PrimFloat.is_nan a) && PrimFloat.leb a b).

Definition row_le (r1 r2 : row) : Prop :=
  ratio_le (Spread_Ratio r1) (Spread_Ratio r2) = true.

(** [DataFrame.sort_values] is pandas, not this script.  The script calls it
    with the default [kind='quicksort'], for which pandas promises a
    reordering of the rows into the order above and nothing about rows with
    equal keys (only [kind='mergesort'] and [kind='stable'] are documented as
    stable).  [sorts_by_ratio sort] says that [sort] does that much. *)
Definition sorts_by_ratio (sort : list row -> list row) : Prop :=
  forall df, Permutation df (sort df) /\ Sorted row_le (sort df).

(** The whole run: the loop from the empty table, then the sort. *)
Definition sorted_results_df (sort : list row -> list row) (E : env)
           (tickers : list value) : result (list row) :=
  st <- scan E tickers empty_state ;;
  Ok (sort (results_df st)).




(** Two sorts by insertion, to compare [sort_values] with; neither is
    pandas.  [insert_row before r df] puts [r] in front of the first row [r']
    with [before r r']. *)
Fixpoint insert_row (before : row -> row -> bool) (r : row) (df : list row) : list row :=
  match df with
  | [] => [r]
  | r' :: df' =>
      if before r r' then r :: r' :: df'
      else r' :: insert_row before r df'
  end.

Definition insertion_sort (before : row -> row -> bool) (df : list row) : list row :=
  fold_right (insert_row before) [] df.

(** A row goes in front of the rows that are not below it: ties keep their
    order.  This is the order the specification asks of the ranker. *)
Definition stable_sort : list row -> list row :=
  insertion_sort (fun r r' => ratio_le (Spread_Ratio r) (Spread_Ratio r')).

(** A row goes in front of the rows strictly above it only: ties come out
    reversed.  It is a second function that puts rows in the order of the
    keys, to instantiate statements about all such functions; it is not what
    [sort_values] does. *)
Definition tie_reversing_sort : list row -> list row :=
  insertion_sort (fun r r' => negb (ratio_le (Spread_Ratio r') (Spread_Ratio r))).

(** ** Chains of the expected shape *)

(** An option record is a dict. *)
Definition is_record (o : value) : bool :=
  match o with
  | VDict _ => true
  | _ => false
  end.

(** The option records of a strike: a list of dicts. *)
Definition is_record_list (v : value) : bool :=
  match v with
  | VList l => forallb is_record l
  | _ => false
  end.

(** The strikes of an expiration: a dict of record lists. *)
Definition is_strike_map (v : value) : bool :=
  match v with
  | VDict kvs => forallb (fun kv => is_record_list (snd kv)) kvs
  | _ => false
  end.

(** ["callExpDateMap"]: a dict of strike maps. *)
Definition is_exp_date_map (v : value) : bool :=
  match v with
  | VDict kvs => forallb (fun kv => is_strike_map (snd kv)) kvs
  | _ => false
  end.

(** A decoded body of the expected nesting: a dict whose ["callExpDateMap"],
    when it has one, maps expirations to strikes to lists of records. *)
Definition is_chain_response (v : value) : bool :=
  match v with
  | VDict kvs =>
      match Py.lookup "callExpDateMap" kvs with
      | Some m => is_exp_date_map m
      | None => true
      end
  | _ => false
  end.

(** The chain with one expiration and one strike holding [options]. *)
Definition single_strike_chain (options : list value) : value :=
  VDict [("callExpDateMap",
          VDict [("2024-10-11:7", VDict [("150.0", VList options)])])].

(** One expiration with two strikes, each with one record that has a price. *)
Definition two_strike_chain : value :=
  VDict [("callExpDateMap",
          VDict [("2024-10-11:7",
                  VDict [("150.0", VList [VDict [("last", VNum 1.5)]]);
                         ("155.0", VList [VDict [("last", VNum 2.5)]])])])].

(** A chain with an expiration without strikes, a strike without records and
    a record without a price in front of the one record that has a price. *)
Definition sparse_chain : value :=
  VDict [("symbol", VStr "XYZ");
         ("callExpDateMap",
          VDict [("2024-10-11:7", VDict []);
                 ("2024-10-18:14",
                  VDict [("150.0", VList []);
                         ("155.0", VList [VDict [("bid", VNum 1.25)];
                                          VDict [("last", VNum 1.75)]])])])].

(** ** First found, when every expiration has one strike

    The requests ask for [strikeCount=1].  For a chain that has one strike
    per expiration, "the first record that has the price" is written down
    here on its own, to be compared with the loops. *)

(** The value under ["last"] in the first record that has the key. *)
Fixpoint first_last (records : list (list (string * value))) : option value :=
  match records with
  | [] => None
  | fields :: rest =>
      match Py.lookup "last" fields with
      | Some v => Some v
      | None => first_last rest
      end
  end.

(** Expirations in order, each with the records of its strike: the first
    value found that way that is not [None]. *)
Fixpoint first_found (expirations : list (list (list (string * value)))) : value :=
  match expirations with
  | [] => VNone
  | records :: rest =>
      match first_last records with
      | Some v => if Py.is_not_None v then v else first_found rest
      | None => first_found rest
      end
  end.

(** The body with the given expirations, each a key, the key of its one
    strike and the records of that strike. *)
Definition one_strike_per_expiration
           (expirations : list (string * (string * list (list (string * value)))))
  : value :=
  VDict [("callExpDateMap",
          VDict (map (fun e => (fst e, VDict [(fst (snd e),
                                               VList (map VDict (snd (snd e))))]))
                     expirations))].

(** ** Outcomes of a ticker *)

(** The request for [url] came back with status 200 and the extractor read
    [price] from its body. *)
Definition fetched (E : env) (url : string) (price : value) : Prop :=
  exists r d,
    requests_get E url = Ok r /\ status_code r = 200 /\
    json r = Ok d /\ extract_last_price d = Ok price.

(** The request for [url] came back with another status. *)
Definition refused (E : env) (url : string) (status : Z) : Prop :=
  exists r,
    requests_get E url = Ok r /\ status_code r = status /\ status <> 200.

(** The ticker is skipped, with the line printed for it: a request was
    refused, or both were served and a price is missing (or zero). *)
Inductive skipped (E : env) (ticker : string) : line -> Prop :=
| skipped_short_term (status : Z) :
    refused E (short_term_URL E ticker) status ->
    skipped E ticker (Short_term_request_failed ticker status)
| skipped_long_term (week_last_price : value) (status : Z) :
    fetched E (short_term_URL E ticker) week_last_price ->
    refused E (long_term_URL E ticker) status ->
    skipped E ticker (Long_term_request_failed ticker status)
| skipped_missing_data (week_last_price year_last_price : value) :
    fetched E (short_term_URL E ticker) week_last_price ->
    fetched E (long_term_URL E ticker) year_last_price ->
    Py.truthy week_last_price && Py.truthy year_last_price = false ->
    skipped E ticker (Could_not_calculate ticker).

(** The ticker yields the row [r]: both requests were served, both prices are
    truthy and their quotient is the ratio. *)
Inductive completes (E : env) (ticker : string) : row -> Prop :=
| completes_row (week_last_price year_last_price : value) (ratio : float) :
    fetched E (short_term_URL E ticker) week_last_price ->
    fetched E (long_term_URL E ticker) year_last_price ->
    Py.truthy week_last_price = true ->
    Py.truthy year_last_price = true ->
    Py.truediv year_last_price week_last_price = Ok ratio ->
    completes E ticker {| Ticker := ticker;
                          Week_Last_Price := week_last_price;
                          Year_Last_Price := year_last_price;
                          Spread_Ratio := ratio |}.

Definition is_str (v : value) : bool :=
  match v with
  | VStr _ => true
  | _ => false
  end.

(** The rows a list of tickers yields, in the order of the list: none for an
    entry that is not a string or that is skipped, one for an entry that
    completes. *)
Inductive emitted (E : env) : list value -> list row -> Prop :=
| emitted_nil : emitted E [] []
| emitted_not_str (v : value) (tickers : list value) (rows : list row) :
    is_str v = false ->
    emitted E tickers rows ->
    emitted E (v :: tickers) rows
| emitted_skipped (s : string) (l : line) (tickers : list value) (rows : list row) :
    skipped E (Py.upper s) l ->
    emitted E tickers rows ->
    emitted E (VStr s :: tickers) rows
| emitted_row (s : string) (r : row) (tickers : list value) (rows : list row) :
    completes E (Py.upper s) r ->
    emitted E tickers rows ->
    emitted E (VStr s :: tickers) (r :: rows).

(** Two providers that answer alike on every URL the loop builds for
    [tickers], under the same four dates. *)
Definition same_responses (E E' : env) (tickers : list value) : Prop :=
  one_week_date E = one_week_date E' /\ one_week_date2 E = one_week_date2 E' /\
  one_year_date E = one_year_date E' /\ one_year_date2 E = one_year_date2 E' /\
  forall s, In (VStr s) tickers ->
    requests_get E (short_term_URL E (Py.upper s))
      = requests_get E' (short_term_URL E' (Py.upper s)) /\
    requests_get E (long_term_URL E (Py.upper s))
      = requests_get E' (long_term_URL E' (Py.upper s)).


(** ** Sample providers *)

(** A provider given by a table: per symbol, the answer to the short-term
    request and the answer to the long-term request.  The dates are those of
    a run on 2024-10-04. *)
Fixpoint serve (table : list (string * (response * response))) (url : string)
  : result response :=
  match table with
  | [] => Raise ConnectionError
  | (symbol, (near, far)) :: table' =>
      if Py.substring_of ("symbol=" ++ symbol ++ "&") url then
        Ok (if Py.substring_of "fromDate=2024-10-10&" url then near else far)
      else serve table' url
  end.

Definition sample_env (table : list (string * (response * response))) : env :=
  {| one_week_date := "2024-10-10";
     one_week_date2 := "2024-10-15";
     one_year_date := "2025-08-30";
     one_year_date2 := "2026-05-27";
     requests_get := serve table |}.

(** Status 200 with a chain of one record whose last price is [price]. *)
Definition quote (price : value) : response :=
  {| status_code := 200;
     json := Ok (single_strike_chain [VDict [("last", price)]]) |}.

Definition status_only (status : Z) : response :=
  {| status_code := status; json := Raise JSONDecodeError |}.

(** A: 1.0 and 4.0; B: 2.0 and 3.0. *)
Definition env_A_B : env :=
  sample_env [("A", (quote (VNum 1), quote (VNum 4)));
              ("B", (quote (VNum 2), quote (VNum 3)))].

(** XYZ is refused on its short-term request. *)
Definition env_XYZ_refused : env :=
  sample_env [("XYZ", (status_only 500, quote (VNum 4)));
              ("B", (quote (VNum 2), quote (VNum 3)))].

(** XYZ is served a body that is not JSON. *)
Definition env_XYZ_not_json : env :=
  sample_env [("XYZ", (status_only 200, quote (VNum 4)));
              ("B", (quote (VNum 2), quote (VNum 3)))].

(** XYZ is served a JSON body that is an array, not an object. *)
Definition env_XYZ_array_body : env :=
  sample_env [("XYZ", ({| status_code := 200; json := Ok (VList []) |},
                       quote (VNum 4)));
              ("B", (quote (VNum 2), quote (VNum 3)))].

(** A is quoted -1.0 short-term and 5.0 long-term. *)
Definition env_negative : env :=
  sample_env [("A", (quote (VNum (-1)), quote (VNum 5)))].

Definition env_AAPL_MSFT : env :=
  sample_env [("AAPL", (quote (VNum 2), quote (VNum 10)));
              ("MSFT", (quote (VNum 4), quote (VNum 6)))].

(** As [env_A_B], with one more symbol served. *)
Definition env_A_B_C : env :=
  sample_env [("A", (quote (VNum 1), quote (VNum 4)));
              ("B", (quote (VNum 2), quote (VNum 3)));
              ("C", (quote (VNum 8), quote (VNum 9)))].



Definition row_A : row :=
  {| Ticker := "A"; Week_Last_Price := VNum 1; Year_Last_Price := VNum 4;
     Spread_Ratio := 4 |}.

Definition row_B : row :=
  {| Ticker := "B"; Week_Last_Price := VNum 2; Year_Last_Price := VNum 3;
     Spread_Ratio := 1.5 |}.

(** A is quoted the strings "1.5" and "3.0" instead of numbers. *)
Definition env_string_prices : env :=
  sample_env [("A", (quote (VStr "1.5"), quote (VStr "3.0")));
              ("B", (quote (VNum 2), quote (VNum 3)))].


(** ** What a chain holds *)

(** The body with the given expirations under ["callExpDateMap"]. *)
Definition chain_of (expirations : list (string * value)) : value :=
  VDict [("callExpDateMap", VDict expirations)].

(** [v] stands under ["last"] in a record of a strike of an expiration of
    the body. *)
Definition quoted_in (response_data v : value) : Prop :=
  exists items expirations exp_date_key strikes strike_key options_list fields,
    response_data = VDict items /\
    Py.lookup "callExpDateMap" items = Some (VDict expirations) /\
    In (exp_date_key, VDict strikes) expirations /\
    In (strike_key, VList options_list) strikes /\
    In (VDict fields) options_list /\
    Py.lookup "last" fields = Some v.

(** A price as JSON has it: [null], a boolean, a [float], or an [int] below
    2^53 in magnitude. *)
Definition price_like (v : value) : bool :=
  match v with
  | VNone | VNum _ | VBool _ => true
  | VInt n => Py.fits_double n
  | _ => false
  end.

Definition priced_record (o : value) : bool :=
  match o with
  | VDict fields =>
      match Py.lookup "last" fields with
      | Some v => price_like v
      | None => true
      end
  | _ => true
  end.

Definition priced_options (options_list : value) : bool :=
  match options_list with
  | VList l => forallb priced_record l
  | _ => true
  end.

Definition priced_strikes (strikes : value) : bool :=
  match strikes with
  | VDict kvs => forallb (fun kv => priced_options (snd kv)) kvs
  | _ => true
  end.

(** Every value under ["last"] in the body is a price. *)
Definition priced_chain (response_data : value) : bool :=
  match response_data with
  | VDict items =>
      match Py.lookup "callExpDateMap" items with
      | Some (VDict expirations) =>
          forallb (fun kv => priced_strikes (snd kv)) expirations
      | _ => true
      end
  | _ => true
  end.

(** ** What a provider does for a URL *)

(** The request is answered, and with status 200 the body is JSON. *)
Definition answers (E : env) (url : string) : Prop :=
  exists r, requests_get E url = Ok r /\
            (status_code r = 200 -> exists d, json r = Ok d).

(** The request is answered, and with status 200 the body is a chain of the
    expected nesting whose values under ["last"] are prices. *)
Definition well_served (E : env) (url : string) : Prop :=
  exists r, requests_get E url = Ok r /\
            (status_code r = 200 ->
             exists d, json r = Ok d /\
                       is_chain_response d = true /\ priced_chain d = true).

(** The number of strings in the ticker list. *)
Definition count_str (tickers : list value) : nat :=
  List.length (filter is_str tickers).

(** ** The ticker list (script lines 40-57) *)

(** What [requests.get] returns for the ticker file: the status code and
    [response.text]. *)
Record text_response : Type := {
  text_status_code : Z;
  text : string
}.

(** The SEC site, a function of the URL, and
    [pd.read_csv(StringIO(text), delimiter='\t', header=None)], which is
    pandas: the columns of the frame it builds, or nothing when it raises. *)
Record ticker_source : Type := {
  sec_get : string -> result text_response;
  read_csv : string -> option (list (list value))
}.

Definition tickers_url : string := "https://www.sec.gov/include/ticker.txt".

(** What can end the script before the loop: [requests.get] raising, [read_csv]
    raising, or the [ValueError] of [tickers.columns = ['Ticker', 'CIK']] on
    a frame that does not have two columns. *)
Inductive startup_exn : Type :=
| RequestRaised (e : exn)
| ReadCsvRaised
| ValueError.

(** [fetch_all_tickers()]: the list returned and, in the [else] branch, the
    status printed after "Failed to fetch data:". *)
Definition fetch_all_tickers (S : ticker_source)
  : startup_exn + (list value * option Z) :=
  match sec_get S tickers_url with
  | Raise e => inl (RequestRaised e)
  | Ok response =>
      if text_status_code response =? 200 then
        match read_csv S (text response) with
        | None => inl ReadCsvRaised
        | Some [Ticker_column; CIK_column] => inr (Ticker_column, None)
        | Some _ => inl ValueError
        end
      else inr ([], Some (text_status_code response))
  end.

(** How the script ends, up to line 136. *)
Inductive run : Type :=
| Startup_failed (e : startup_exn)
| Scan_failed (e : exn)
| Finished (table : list row) (failed_to_fetch : option Z) (printed : list line).

(** Lines 57-136: the ticker list, the loop, the sort. *)
Definition script (S : ticker_source) (sort : list row -> list row) (E : env) : run :=
  match fetch_all_tickers S with
  | inl e => Startup_failed e
  | inr (tickers, failed_to_fetch) =>
      match scan E tickers empty_state with
      | Raise e => Scan_failed e
      | Ok st => Finished (sort (results_df st)) failed_to_fetch (stdout st)
      end
  end.

(** ** More sample data *)

(** One record without a price. *)
Definition unquoted_chain : value :=
  single_strike_chain [VDict [("bid", VNum 1.25)]].

(** The SEC site answers 503. *)
Definition sec_down : ticker_source :=
  {| sec_get := fun _ => Ok {| text_status_code := 503; text := EmptyString |};
     read_csv := fun _ => None |}.

(** The ticker file parses into three columns. *)
Definition sec_three_columns : ticker_source :=
  {| sec_get := fun _ => Ok {| text_status_code := 200; text := "a b c" |};
     read_csv := fun _ => Some [[VStr "a"]; [VStr "b"]; [VStr "c"]] |}.

(** A is quoted the integers 1 and 10^400. *)
Definition env_huge_price : env :=
  sample_env [("A", (quote (VInt 1), quote (VInt (10 ^ 400))));
              ("B", (quote (VNum 2), quote (VNum 3)))].

(** No chain request is answered. *)
Definition env_unreachable : env := sample_env [].

(** * Properties of the extractor *)

Section Extractor.

Lemma scan_options_skip (before rest : list value) (price : value) :
  Forall (fun o => Py.contains "last" o = Ok false) before ->
  scan_options (before ++ rest) price = scan_options rest price.
Proof.
  induction 1 as [|o before Ho _ IH]; simpl; [reflexivity|].
  now rewrite Ho.
Qed.

Lemma scan_options_hit (fields : list (string * value)) (v : value)
      (rest : list value) (price : value) :
  Py.lookup "last" fields = Some v ->
  scan_options (VDict fields :: rest) price = Ok v.
Proof.
  intros H. cbn [scan_options Py.contains Py.getitem bind].
  now rewrite H.
Qed.

Lemma scan_options_miss (fields : list (string * value))
      (rest : list value) (price : value) :
  Py.lookup "last" fields = None ->
  scan_options (VDict fields :: rest) price = scan_options rest price.
Proof.
  intros H. cbn [scan_options Py.contains Py.getitem bind].
  now rewrite H.
Qed.

Lemma scan_options_total (l : list value) (price : value) :
  forallb is_record l = true ->
  exists p, scan_options l price = Ok p.
Proof.
  induction l as [|o l IH]; intros H.
  - now exists price.
  - simpl in H. apply andb_prop in H as [Ho Hl].
    destruct o; try discriminate.
    destruct (Py.lookup "last" items) as [v|] eqn:E.
    + exists v. now apply scan_options_hit.
    + rewrite (scan_options_miss _ _ _ E). auto.
Qed.

Lemma scan_strikes_total (strikes : list (string * value)) (price : value) :
  forallb (fun kv => is_record_list (snd kv)) strikes = true ->
  exists p, scan_strikes strikes price = Ok p.
Proof.
  revert price.
  induction strikes as [|[k ol] strikes IH]; intros price H.
  - now exists price.
  - simpl in H. apply andb_prop in H as [Ho Hl].
    destruct ol; try discriminate. simpl in Ho.
    destruct (scan_options_total l price Ho) as [p Hp].
    cbn [scan_strikes Py.iter bind]. rewrite Hp. cbn [bind]. auto.
Qed.

Lemma scan_expirations_total (exps : list (string * value)) (price : value) :
  forallb (fun kv => is_strike_map (snd kv)) exps = true ->
  exists p, scan_expirations exps price = Ok p.
Proof.
  revert price.
  induction exps as [|[k strikes] exps IH]; intros price H.
  - now exists price.
  - simpl in H. apply andb_prop in H as [Ho Hl].
    destruct strikes; try discriminate. simpl in Ho.
    destruct (scan_strikes_total items price Ho) as [p Hp].
    cbn [scan_expirations Py.items bind]. rewrite Hp. cbn [bind].
    destruct (Py.is_not_None p); eauto.
Qed.

Lemma extract_last_price_total (response_data : value) :
  is_chain_response response_data = true ->
  exists p, extract_last_price response_data = Ok p.
Proof.
  destruct response_data; try discriminate. simpl.
  unfold extract_last_price, Py.get.
  destruct (Py.lookup "callExpDateMap" items) as [m|].
  - intros H. destruct m; try discriminate. simpl in H.
    cbn [bind Py.items]. now apply scan_expirations_total.
  - intros _. now exists VNone.
Qed.

(** C1 (the script departs from it).  In [two_strike_chain] the first record
    met in source order that has the price field is the one of strike 150.0,
    with price 1.5; the extractor returns 2.5, the price of the later strike
    155.0 of the same expiration: the loop over the strikes has no [break]
    and the later strike overwrites the price. *)
Theorem extract_last_price_later_strike_wins :
  scan_options [VDict [("last", VNum 1.5)]] VNone = Ok (VNum 1.5) /\
  extract_last_price two_strike_chain = Ok (VNum 2.5).
Proof. split; reflexivity. Qed.

(** C6.  The extractor raises nothing on a chain of the expected nesting
    (expirations to strikes to lists of records), whatever is missing in it:
    without the outer mapping, or with an empty one, it returns [None]; an
    expiration without strikes, a strike with an empty list of records and a
    record without the price field are each passed over, the search going on
    with what follows. *)
Theorem extract_last_price_passes_over_gaps :
  (forall response_data,
      is_chain_response response_data = true ->
      exists price, extract_last_price response_data = Ok price) /\
  (forall items,
      Py.lookup "callExpDateMap" items = None ->
      extract_last_price (VDict items) = Ok VNone) /\
  (forall items,
      Py.lookup "callExpDateMap" items = Some (VDict []) ->
      extract_last_price (VDict items) = Ok VNone) /\
  (forall exp_date_key rest,
      scan_expirations ((exp_date_key, VDict []) :: rest) VNone
      = scan_expirations rest VNone) /\
  (forall strike_key rest price,
      scan_strikes ((strike_key, VList []) :: rest) price
      = scan_strikes rest price) /\
  (forall fields rest price,
      Py.lookup "last" fields = None ->
      scan_options (VDict fields :: rest) price = scan_options rest price).
Proof.
  repeat split.
  - apply extract_last_price_total.
  - intros items H. unfold extract_last_price, Py.get. now rewrite H.
  - intros items H. unfold extract_last_price, Py.get. now rewrite H.
  - apply scan_options_miss.
Qed.

Lemma extract_last_price_passes_over_gaps_witness :
  is_chain_response sparse_chain = true /\
  exists price, extract_last_price sparse_chain = Ok price.
Proof.
  split; [reflexivity|].
  apply (proj1 extract_last_price_passes_over_gaps). reflexivity.
Defined.

(** C9.  In the records of a strike, once a record has the key ["last"] with
    the value [None] and no record before it has the key, the scan of the
    strike ends there with [None]: the records after it have no part in the
    result, whatever they hold.  A chain made of that one strike gets [None]
    from the extractor, also when a later record has a number for price. *)
Theorem scan_options_breaks_on_key_presence
        (before after : list value) (fields : list (string * value)) (price : value) :
  Forall (fun o => Py.contains "last" o = Ok false) before ->
  Py.lookup "last" fields = Some VNone ->
  scan_options (before ++ VDict fields :: after) price = Ok VNone /\
  extract_last_price (single_strike_chain (before ++ VDict fields :: after)) = Ok VNone.
Proof.
  intros Hb Hf.
  assert (H : forall p, scan_options (before ++ VDict fields :: after) p = Ok VNone).
  { intros p. rewrite (scan_options_skip _ _ _ Hb). now apply scan_options_hit. }
  split; [apply H|].
  unfold extract_last_price, single_strike_chain.
  cbn [Py.get Py.lookup String.eqb Ascii.eqb Bool.eqb bind Py.items
       scan_expirations scan_strikes Py.iter].
  rewrite H. reflexivity.
Qed.

Lemma scan_options_breaks_on_key_presence_witness :
  scan_options ([VDict [("bid", VNum 1.25)]]
                  ++ VDict [("last", VNone)] :: [VDict [("last", VNum 3.25)]]) VNone
  = Ok VNone /\
  extract_last_price
    (single_strike_chain ([VDict [("bid", VNum 1.25)]]
                            ++ VDict [("last", VNone)] :: [VDict [("last", VNum 3.25)]]))
  = Ok VNone.
Proof.
  apply scan_options_breaks_on_key_presence.
  - repeat constructor.
  - reflexivity.
Defined.

Lemma scan_options_first_last (records : list (list (string * value))) (price : value) :
  scan_options (map VDict records) price
  = Ok match first_last records with
       | Some v => v
       | None => price
       end.
Proof.
  induction records as [|fields records IH]; cbn [map first_last]; [reflexivity|].
  destruct (Py.lookup "last" fields) as [v|] eqn:Hf.
  - now apply scan_options_hit.
  - now rewrite (scan_options_miss _ _ _ Hf).
Qed.

(** X7.  On a body with one strike per expiration, whose records are dicts,
    the extractor returns the first value found under ["last"] that is not
    [None], taking the expirations in order and, in each, the first record
    that has the key; it returns [None] when there is no such value. *)
Theorem extract_last_price_first_found
        (expirations : list (string * (string * list (list (string * value))))) :
  extract_last_price (one_strike_per_expiration expirations)
  = Ok (first_found (map (fun e => snd (snd e)) expirations)).
Proof.
  unfold extract_last_price, one_strike_per_expiration.
  cbn [Py.get Py.lookup String.eqb Ascii.eqb Bool.eqb bind Py.items].
  induction expirations as [|[e [k records]] expirations IH];
    cbn [map fst snd scan_expirations first_found Py.items bind scan_strikes Py.iter];
    [reflexivity|].
  rewrite scan_options_first_last. cbn [bind].
  destruct (first_last records) as [v|].
  - destruct (Py.is_not_None v) eqn:Hv; [reflexivity|].
    destruct v; try discriminate. exact IH.
  - exact IH.
Qed.

Lemma scan_strikes_app (strikes strikes' : list (string * value)) (price : value) :
  scan_strikes (strikes ++ strikes') price
  = (price' <- scan_strikes strikes price ;; scan_strikes strikes' price').
Proof.
  revert price. induction strikes as [|[k ol] strikes IH]; intros price;
    cbn [app scan_strikes bind]; [reflexivity|].
  destruct (Py.iter ol) as [options|e]; cbn [bind]; [|reflexivity].
  destruct (scan_options options price) as [p|e]; cbn [bind]; [apply IH|reflexivity].
Qed.

(** X1.  Within one expiration the last strike that has a record with the
    price field decides: whatever the strikes before it hold, the price after the
    loop over the strikes is the one of the first record with the field in
    that last strike. *)
Theorem scan_strikes_last_strike_decides
        (strikes : list (string * value)) (strike_key : string)
        (before after : list value) (fields : list (string * value))
        (v price : value) :
  forallb (fun kv => is_record_list (snd kv)) strikes = true ->
  Forall (fun o => Py.contains "last" o = Ok false) before ->
  Py.lookup "last" fields = Some v ->
  scan_strikes (strikes ++ [(strike_key, VList (before ++ VDict fields :: after))]) price
  = Ok v.
Proof.
  intros Hs Hb Hf. rewrite scan_strikes_app.
  destruct (scan_strikes_total strikes price Hs) as [p Hp]. rewrite Hp.
  cbn [bind scan_strikes Py.iter].
  rewrite (scan_options_skip _ _ _ Hb), (scan_options_hit _ _ _ _ Hf).
  reflexivity.
Qed.

Lemma scan_strikes_last_strike_decides_witness :
  scan_strikes ([("150.0", VList [VDict [("last", VNum 1.5)]])]
                  ++ [("155.0", VList ([VDict [("bid", VNum 2.25)]]
                                         ++ VDict [("last", VNum 2.5)] :: []))])
               VNone
  = Ok (VNum 2.5).
Proof.
  apply scan_strikes_last_strike_decides.
  - reflexivity.
  - repeat constructor.
  - reflexivity.
Defined.

End Extractor.

(** * Properties of the spread ratio *)

Section SpreadRatio.




End SpreadRatio.

(** * Properties of the date windows *)

Section DateWindows.

Lemma add_days_in_range (d n : Z) :
  1 <= d + n <= Dates.MAXORDINAL ->
  Dates.add_days d n = Ok (d + n).
Proof.
  intros [H1 H2]. unfold Dates.add_days.
  apply Z.leb_le in H1, H2. cbv zeta. now rewrite H1, H2.
Qed.

(** C5.  For a date [today] from which 600 days on is still in the calendar,
    the near-term window is (today + 6, today + 11) and the far-term window
    is (today + 330, today + 600); each window starts no later than it ends,
    and the far-term window starts after the near-term window has ended. *)
Theorem compute_windows_disjoint (today : Z) :
  1 <= today ->
  today + 600 <= Dates.MAXORDINAL ->
  exists near far : Dates.window,
    Dates.compute_windows today = Ok (near, far) /\
    near = (today + 6, today + 11) /\
    far = (today + 330, today + 600) /\
    fst near <= snd near /\
    fst far <= snd far /\
    snd near < fst far.
Proof.
  intros H1 H2.
  exists (today + 6, today + 11), (today + 330, today + 600).
  split.
  - unfold Dates.compute_windows, Dates.one_week_date, Dates.one_week_date2,
      Dates.one_year_date, Dates.one_year_date2.
    rewrite !add_days_in_range by lia. reflexivity.
  - cbn [fst snd]. repeat split; lia.
Qed.

Lemma compute_windows_disjoint_witness :
  exists near far : Dates.window,
    Dates.compute_windows 739163 = Ok (near, far) /\
    near = (739163 + 6, 739163 + 11) /\
    far = (739163 + 330, 739163 + 600) /\
    fst near <= snd near /\
    fst far <= snd far /\
    snd near < fst far.
Proof.
  apply compute_windows_disjoint; unfold Dates.MAXORDINAL; lia.
Defined.

(** X3.  From a date less than 600 days before the end of the calendar the
    script does not get past its first lines: the date arithmetic raises
    [OverflowError]. *)
Theorem compute_windows_overflow (today : Z) :
  1 <= today ->
  Dates.MAXORDINAL < today + 600 ->
  Dates.compute_windows today = Raise OverflowError.
Proof.
  intros H1 H2.
  unfold Dates.compute_windows, Dates.one_week_date, Dates.one_week_date2,
    Dates.one_year_date, Dates.one_year_date2, Dates.add_days.
  cbv zeta.
  replace (today + 600 <=? Dates.MAXORDINAL) with false
    by (symmetry; apply Z.leb_gt; lia).
  rewrite andb_false_r.
  repeat match goal with
         | |- context [if ?b then _ else _] => destruct b; cbn [bind]
         end; reflexivity.
Qed.

Lemma compute_windows_overflow_witness :
  Dates.compute_windows 3651500 = Raise OverflowError.
Proof.
  apply compute_windows_overflow; unfold Dates.MAXORDINAL; lia.
Defined.

End DateWindows.

(** * Properties of the ticker loop *)

Section TickerLoop.

Variable E : env.

Lemma process_ticker_not_str (v : value) (st : state) :
  is_str v = false -> process_ticker E v st = Ok st.
Proof. destruct v; try discriminate; reflexivity. Qed.

Lemma process_ticker_skipped (s : string) (l : line) (st : state) :
  skipped E (Py.upper s) l ->
  process_ticker E (VStr s) st = Ok (print l st).
Proof.
  intros H. unfold process_ticker.
  destruct H as [status (r & Hr & Hs & Hne)
                |w status (r1 & d1 & Hr1 & Hs1 & Hj1 & Hx1) (r2 & Hr2 & Hs2 & Hne)
                |w y (r1 & d1 & Hr1 & Hs1 & Hj1 & Hx1) (r2 & d2 & Hr2 & Hs2 & Hj2 & Hx2) Hf].
  - rewrite Hr. cbn [bind].
    apply Z.eqb_neq in Hne. rewrite Hs, Hne. now rewrite <- Hs.
  - rewrite Hr1. cbn [bind]. rewrite Hs1, Z.eqb_refl, Hj1. cbn [bind].
    rewrite Hx1. cbn [bind]. rewrite Hr2. cbn [bind].
    apply Z.eqb_neq in Hne. rewrite Hs2, Hne. now rewrite <- Hs2.
  - rewrite Hr1. cbn [bind]. rewrite Hs1, Z.eqb_refl, Hj1. cbn [bind].
    rewrite Hx1. cbn [bind]. rewrite Hr2. cbn [bind].
    rewrite Hs2, Z.eqb_refl, Hj2. cbn [bind]. rewrite Hx2. cbn [bind].
    unfold spread_ratio. rewrite Hf. reflexivity.
Qed.

Lemma process_ticker_completes (s : string) (r : row) (st : state) :
  completes E (Py.upper s) r ->
  process_ticker E (VStr s) st = Ok (concat r st).
Proof.
  intros H. unfold process_ticker.
  destruct H as [w y q (r1 & d1 & Hr1 & Hs1 & Hj1 & Hx1)
                       (r2 & d2 & Hr2 & Hs2 & Hj2 & Hx2) Hw Hy Hq].
  rewrite Hr1. cbn [bind]. rewrite Hs1, Z.eqb_refl, Hj1. cbn [bind].
  rewrite Hx1. cbn [bind]. rewrite Hr2. cbn [bind].
  rewrite Hs2, Z.eqb_refl, Hj2. cbn [bind]. rewrite Hx2. cbn [bind].
  unfold spread_ratio. rewrite Hw, Hy. cbn [andb]. rewrite Hq. reflexivity.
Qed.

(** Every way an iteration on a string can end without an exception. *)
Lemma process_ticker_inv (s : string) (st st' : state) :
  process_ticker E (VStr s) st = Ok st' ->
  (exists l, skipped E (Py.upper s) l /\ st' = print l st) \/
  (exists r, completes E (Py.upper s) r /\ st' = concat r st).
Proof.
  unfold process_ticker.
  destruct (requests_get E (short_term_URL E (Py.upper s))) as [r1|e] eqn:Hr1;
    cbn [bind]; [|discriminate].
  destruct (status_code r1 =? 200) eqn:Hs1.
  2:{ intros H. inversion H; subst; clear H. left. eexists. split; [|reflexivity].
      apply skipped_short_term. exists r1. apply Z.eqb_neq in Hs1. auto. }
  apply Z.eqb_eq in Hs1.
  destruct (json r1) as [d1|e] eqn:Hj1; cbn [bind]; [|discriminate].
  destruct (extract_last_price d1) as [w|e] eqn:Hx1; cbn [bind]; [|discriminate].
  assert (Hf1 : fetched E (short_term_URL E (Py.upper s)) w)
    by (exists r1, d1; auto).
  destruct (requests_get E (long_term_URL E (Py.upper s))) as [r2|e] eqn:Hr2;
    cbn [bind]; [|discriminate].
  destruct (status_code r2 =? 200) eqn:Hs2.
  2:{ intros H. inversion H; subst; clear H. left. eexists. split; [|reflexivity].
      apply (skipped_long_term _ _ w); [assumption|].
      exists r2. apply Z.eqb_neq in Hs2. auto. }
  apply Z.eqb_eq in Hs2.
  destruct (json r2) as [d2|e] eqn:Hj2; cbn [bind]; [|discriminate].
  destruct (extract_last_price d2) as [y|e] eqn:Hx2; cbn [bind]; [|discriminate].
  assert (Hf2 : fetched E (long_term_URL E (Py.upper s)) y)
    by (exists r2, d2; auto).
  unfold spread_ratio.
  destruct (Py.truthy w && Py.truthy y) eqn:Ht.
  - destruct (Py.truediv y w) as [q|e] eqn:Hq; cbn [bind]; [|discriminate].
    intros H. inversion H; subst; clear H. right. eexists. split; [|reflexivity].
    apply andb_prop in Ht as [Hw Hy]. now apply (completes_row _ _ w y q).
  - cbn [bind]. intros H. inversion H; subst; clear H.
    left. eexists. split; [|reflexivity].
    now apply (skipped_missing_data _ _ w y).
Qed.

Lemma skipped_not_completes (ticker : string) (l : line) (r : row) :
  skipped E ticker l -> completes E ticker r -> False.
Proof.
  intros [status (r1 & Hr1 & Hs1 & Hne)
         |w status (r1 & d1 & Hr1 & Hs1 & Hj1 & Hx1) (r2 & Hr2 & Hs2 & Hne)
         |w y (r1 & d1 & Hr1 & Hs1 & Hj1 & Hx1) (r2 & d2 & Hr2 & Hs2 & Hj2 & Hx2) Hf]
         [w' y' q (r1' & d1' & Hr1' & Hs1' & Hj1' & Hx1')
                  (r2' & d2' & Hr2' & Hs2' & Hj2' & Hx2') Hw Hy Hq].
  - rewrite Hr1 in Hr1'. inversion Hr1'; subst. congruence.
  - rewrite Hr2 in Hr2'. inversion Hr2'; subst. congruence.
  - rewrite Hr1 in Hr1'. inversion Hr1'; subst.
    rewrite Hr2 in Hr2'. inversion Hr2'; subst.
    rewrite Hj1 in Hj1'. inversion Hj1'; subst.
    rewrite Hj2 in Hj2'. inversion Hj2'; subst.
    rewrite Hx1 in Hx1'. inversion Hx1'; subst.
    rewrite Hx2 in Hx2'. inversion Hx2'; subst.
    rewrite Hw, Hy in Hf. discriminate.
Qed.

Lemma completes_ratio (ticker : string) (r : row) :
  completes E ticker r ->
  Ticker r = ticker /\
  Py.truediv (Year_Last_Price r) (Week_Last_Price r) = Ok (Spread_Ratio r).
Proof. intros [w y q _ _ _ _ Hq]. now split. Qed.

Lemma scan_app (before after : list value) (st : state) :
  scan E (before ++ after) st = (st' <- scan E before st ;; scan E after st').
Proof.
  revert st. induction before as [|t before IH]; intros st; cbn [scan app bind].
  - reflexivity.
  - destruct (process_ticker E t st) as [st1|e]; cbn [bind]; [apply IH|reflexivity].
Qed.

(** What is printed has no part in the rows. *)
Lemma process_ticker_rows (t : value) (st1 st2 : state) :
  results_df st1 = results_df st2 ->
  result_map results_df (process_ticker E t st1)
  = result_map results_df (process_ticker E t st2).
Proof.
  intros H. destruct t; try (cbn; now rewrite H).
  unfold process_ticker.
  repeat match goal with
         | |- context [bind ?m _] =>
             lazymatch m with
             | bind _ _ => fail
             | _ => destruct m; cbn [bind result_map]; try reflexivity
             end
         | |- context [if ?b then _ else _] =>
             destruct b; cbn [bind result_map]; try reflexivity
         | |- context [match ?o with Some _ => _ | None => _ end] =>
             destruct o; cbn [bind result_map]; try reflexivity
         end;
    cbn [concat print results_df]; now rewrite H.
Qed.

Lemma scan_rows (tickers : list value) (st1 st2 : state) :
  results_df st1 = results_df st2 ->
  result_map results_df (scan E tickers st1)
  = result_map results_df (scan E tickers st2).
Proof.
  revert st1 st2. induction tickers as [|t tickers IH]; intros st1 st2 H.
  - cbn. now rewrite H.
  - cbn [scan].
    pose proof (process_ticker_rows t st1 st2 H) as Hp.
    destruct (process_ticker E t st1) as [a|e1], (process_ticker E t st2) as [b|e2];
      cbn [bind result_map] in *; try discriminate.
    + apply IH. now inversion Hp.
    + assumption.
Qed.

(** The rows of a finished loop: those it started with and one for every
    ticker that completes. *)
Lemma scan_rows_in (tickers : list value) (st st' : state) :
  scan E tickers st = Ok st' ->
  forall r, In r (results_df st') <->
            In r (results_df st) \/
            exists s, In (VStr s) tickers /\ completes E (Py.upper s) r.
Proof.
  revert st. induction tickers as [|t tickers IH]; intros st H r.
  - cbn in H. inversion H; subst. split; [auto|].
    intros [?|(s & [] & _)]. assumption.
  - cbn [scan] in H.
    destruct (process_ticker E t st) as [st1|e] eqn:Hp; cbn [bind] in H; [|discriminate].
    rewrite (IH _ H r). clear IH H.
    destruct (is_str t) eqn:Ht.
    + destruct t; try discriminate.
      destruct (process_ticker_inv _ _ _ Hp) as [(l & Hl & ->)|(r' & Hr' & ->)].
      * cbn [print results_df]. split.
        -- intros [?|(s' & Hin & Hc)]; [auto|]. right. exists s'. split; [now right|auto].
        -- intros [?|(s' & [Heq|Hin] & Hc)]; [auto| |right; eauto].
           inversion Heq; subst. destruct (skipped_not_completes _ _ _ Hl Hc).
      * cbn [concat results_df]. rewrite in_app_iff. cbn [In]. split.
        -- intros [[?|[<-|[]]]|(s' & Hin & Hc)]; [auto| |].
           ++ right. exists s. split; [now left|assumption].
           ++ right. exists s'. split; [now right|assumption].
        -- intros [?|(s' & [Heq|Hin] & Hc)]; [auto| |right; eauto].
           inversion Heq; subst. left. right. left.
           pose proof (process_ticker_completes s' r st Hc) as Hp'.
           rewrite (process_ticker_completes s' r' st Hr') in Hp'.
           inversion Hp' as [Heq']. apply app_inv_head in Heq'. now inversion Heq'.
    + rewrite (process_ticker_not_str _ _ Ht) in Hp. inversion Hp; subst. split.
      * intros [?|(s' & Hin & Hc)]; [auto|]. right. exists s'. split; [now right|auto].
      * intros [?|(s' & [Heq|Hin] & Hc)]; [auto| |right; eauto].
        subst. discriminate.
Qed.

Lemma scan_rows_ratio (tickers : list value) (st st' : state) :
  scan E tickers st = Ok st' ->
  Forall (fun r => Py.truediv (Year_Last_Price r) (Week_Last_Price r)
                   = Ok (Spread_Ratio r)) (results_df st) ->
  Forall (fun r => Py.truediv (Year_Last_Price r) (Week_Last_Price r)
                   = Ok (Spread_Ratio r)) (results_df st').
Proof.
  intros H H0. apply Forall_forall. intros r Hr.
  apply (scan_rows_in _ _ _ H) in Hr as [Hr|(s & _ & Hc)].
  - revert r Hr. now apply Forall_forall.
  - now apply (completes_ratio (Py.upper s)).
Qed.

Lemma fetched_functional (url : string) (v v' : value) :
  fetched E url v -> fetched E url v' -> v = v'.
Proof.
  intros (r & d & Hr & _ & Hj & Hx) (r' & d' & Hr' & _ & Hj' & Hx').
  rewrite Hr in Hr'. inversion Hr'; subst.
  rewrite Hj in Hj'. inversion Hj'; subst.
  rewrite Hx in Hx'. now inversion Hx'.
Qed.

Lemma fetched_not_refused (url : string) (v : value) (status : Z) :
  fetched E url v -> refused E url status -> False.
Proof.
  intros (r & d & Hr & Hs & _) (r' & Hr' & Hs' & Hne).
  rewrite Hr in Hr'. inversion Hr'; subst. congruence.
Qed.

(** A ticker with two served requests and two truthy prices is not skipped. *)
Lemma fetched_truthy_not_skipped (ticker : string) (w y : value) (l : line) :
  fetched E (short_term_URL E ticker) w ->
  fetched E (long_term_URL E ticker) y ->
  Py.truthy w = true -> Py.truthy y = true ->
  skipped E ticker l -> False.
Proof.
  intros Hw Hy Htw Hty [status Hr|w' status _ Hr|w' y' Hw' Hy' Hf].
  - exact (fetched_not_refused _ _ _ Hw Hr).
  - exact (fetched_not_refused _ _ _ Hy Hr).
  - rewrite <- (fetched_functional _ _ _ Hw Hw'), <- (fetched_functional _ _ _ Hy Hy'),
      Htw, Hty in Hf. discriminate.
Qed.

Lemma scan_emitted (tickers : list value) (st st' : state) :
  scan E tickers st = Ok st' ->
  exists rows, emitted E tickers rows /\ results_df st' = results_df st ++ rows.
Proof.
  revert st. induction tickers as [|t tickers IH]; intros st H.
  - cbn in H. inversion H; subst. exists []. split; [constructor|].
    now rewrite app_nil_r.
  - cbn [scan] in H.
    destruct (process_ticker E t st) as [st1|e] eqn:Hp; cbn [bind] in H; [|discriminate].
    destruct (IH _ H) as (rows & Hrows & Heq). clear IH H.
    destruct (is_str t) eqn:Ht.
    + destruct t; try discriminate.
      destruct (process_ticker_inv _ _ _ Hp) as [(l & Hl & ->)|(r & Hr & ->)].
      * exists rows. split; [now apply (emitted_skipped E s l)|exact Heq].
      * exists (r :: rows). split; [now apply emitted_row|].
        cbn [concat results_df] in Heq. now rewrite Heq, <- app_assoc.
    + rewrite (process_ticker_not_str _ _ Ht) in Hp. inversion Hp; subst.
      exists rows. split; [now apply emitted_not_str|exact Heq].
Qed.

Lemma emitted_scan (tickers : list value) (rows : list row) (st : state) :
  emitted E tickers rows ->
  exists st', scan E tickers st = Ok st' /\ results_df st' = results_df st ++ rows.
Proof.
  intros H. revert st.
  induction H as [|v tickers rows Hv _ IH|s l tickers rows Hl _ IH|s r tickers rows Hr _ IH];
    intros st; cbn [scan].
  - exists st. split; [reflexivity|now rewrite app_nil_r].
  - rewrite (process_ticker_not_str _ _ Hv). cbn [bind]. apply IH.
  - rewrite (process_ticker_skipped _ _ _ Hl). cbn [bind].
    destruct (IH (print l st)) as (st' & Hs & Heq). now exists st'.
  - rewrite (process_ticker_completes _ _ _ Hr). cbn [bind].
    destruct (IH (concat r st)) as (st' & Hs & Heq). exists st'.
    split; [assumption|]. cbn [concat results_df] in Heq.
    now rewrite Heq, <- app_assoc.
Qed.

(** In a list of tickers that yields rows, a string with two served requests
    and two truthy prices has its row among them. *)
Lemma emitted_has_row (tickers : list value) (rows : list row) (s : string) (w y : value) :
  emitted E tickers rows ->
  In (VStr s) tickers ->
  fetched E (short_term_URL E (Py.upper s)) w ->
  fetched E (long_term_URL E (Py.upper s)) y ->
  Py.truthy w = true -> Py.truthy y = true ->
  exists r, In r rows /\ Ticker r = Py.upper s /\
            Week_Last_Price r = w /\ Year_Last_Price r = y.
Proof.
  intros H Hin Hw Hy Htw Hty.
  induction H as [|v tickers rows Hv _ IH|s' l tickers rows Hl _ IH|s' r tickers rows Hr _ IH].
  - destruct Hin.
  - destruct Hin as [->|Hin]; [discriminate|]. now apply IH.
  - destruct Hin as [Heq|Hin]; [|now apply IH].
    inversion Heq; subst.
    destruct (fetched_truthy_not_skipped _ _ _ _ Hw Hy Htw Hty Hl).
  - destruct Hin as [Heq|Hin].
    + inversion Heq; subst. exists r. split; [now left|].
      destruct Hr as [w' y' q Hw' Hy' _ _ _]. cbn.
      now rewrite (fetched_functional _ _ _ Hw Hw'), (fetched_functional _ _ _ Hy Hy').
    + destruct (IH Hin) as (r0 & Hr0 & H0). exists r0. split; [now right|exact H0].
Qed.

End TickerLoop.

(** * Failure isolation, normalisation, determinism *)

Section Scan.

Lemma upper_ascii_idempotent (c : ascii) :
  Py.upper_ascii (Py.upper_ascii c) = Py.upper_ascii c.
Proof.
  destruct c as [[] [] [] [] [] [] [] []]; reflexivity.
Qed.

Lemma upper_idempotent (s : string) : Py.upper (Py.upper s) = Py.upper s.
Proof.
  induction s as [|c s IH]; cbn [Py.upper]; [reflexivity|].
  now rewrite upper_ascii_idempotent, IH.
Qed.

(** C3, as the script has it.  A ticker one of whose requests comes back
    with a status other than 200, or whose prices are missing after two
    served requests, adds no row, has one line printed for it and raises
    nothing; the loop goes on with the tickers after it, and the rows of the
    whole scan are those of the scan without that ticker. *)
Theorem skipped_ticker_does_not_stop_scan (E : env) (s : string) (l : line) :
  skipped E (Py.upper s) l ->
  (forall st, process_ticker E (VStr s) st = Ok (print l st)) /\
  (forall before after st,
      scan E (before ++ VStr s :: after) st
      = (st' <- scan E before st ;; scan E after (print l st'))) /\
  (forall before after st,
      result_map results_df (scan E (before ++ VStr s :: after) st)
      = result_map results_df (scan E (before ++ after) st)).
Proof.
  intros H. split; [|split].
  - intros st. now apply process_ticker_skipped.
  - intros before after st. rewrite scan_app.
    destruct (scan E before st) as [st1|e]; cbn [bind scan]; [|reflexivity].
    now rewrite (process_ticker_skipped E s l st1 H).
  - intros before after st. rewrite !scan_app.
    destruct (scan E before st) as [st1|e]; cbn [bind scan]; [|reflexivity].
    rewrite (process_ticker_skipped E s l st1 H). cbn [bind].
    now apply scan_rows.
Qed.

Lemma skipped_ticker_does_not_stop_scan_witness :
  scan env_XYZ_refused ([] ++ VStr "xyz" :: [VStr "b"]) empty_state
  = (st' <- scan env_XYZ_refused [] empty_state ;;
     scan env_XYZ_refused [VStr "b"]
          (print (Short_term_request_failed "XYZ" 500) st')).
Proof.
  apply (skipped_ticker_does_not_stop_scan
           env_XYZ_refused "xyz" (Short_term_request_failed "XYZ" 500)).
  apply skipped_short_term. exists (status_only 500).
  split; [reflexivity|]. split; [reflexivity|]. discriminate.
Defined.

(** C3 fails as stated: a body that is not JSON, or a JSON body that is not
    an object, served with status 200 for the first ticker, ends the whole
    scan with an exception; the second ticker is never processed. *)
Lemma malformed_body_stops_scan :
  scan env_XYZ_not_json [VStr "xyz"; VStr "b"] empty_state = Raise JSONDecodeError /\
  scan env_XYZ_array_body [VStr "xyz"; VStr "b"] empty_state = Raise AttributeError.
Proof. split; reflexivity. Qed.

Lemma process_ticker_same_responses (E E' : env) (t : value) (st : state) :
  same_responses E E' [t] ->
  process_ticker E t st = process_ticker E' t st.
Proof.
  intros (_ & _ & _ & _ & H). destruct t; try reflexivity.
  destruct (H s (or_introl eq_refl)) as [Hs Hl].
  unfold process_ticker. now rewrite Hs, Hl.
Qed.

(** C7.  An entry of the ticker list that is not a string is passed over: no
    row, no line, no exception.  A string is put in upper case first: the
    iteration is that of its upper-case form, it depends on the provider
    through the two requests for the upper-case symbol only, and the row,
    when there is one, carries the upper-case symbol.  On
    ["aapl", 123, "msft"] the scan yields the rows of AAPL and MSFT. *)
Theorem non_strings_skipped_strings_uppercased (E : env) :
  (forall v st, is_str v = false -> process_ticker E v st = Ok st) /\
  (forall s st,
      process_ticker E (VStr s) st = process_ticker E (VStr (Py.upper s)) st) /\
  (forall E' s st,
      same_responses E E' [VStr s] ->
      process_ticker E (VStr s) st = process_ticker E' (VStr s) st) /\
  (forall s st st',
      process_ticker E (VStr s) st = Ok st' ->
      (exists l, skipped E (Py.upper s) l /\ st' = print l st) \/
      (exists r, completes E (Py.upper s) r /\ Ticker r = Py.upper s /\
                 st' = concat r st)) /\
  scan env_AAPL_MSFT [VStr "aapl"; VNum 123; VStr "msft"] empty_state
  = Ok {| results_df :=
            [ {| Ticker := "AAPL"; Week_Last_Price := VNum 2;
                 Year_Last_Price := VNum 10; Spread_Ratio := 5 |};
              {| Ticker := "MSFT"; Week_Last_Price := VNum 4;
                 Year_Last_Price := VNum 6; Spread_Ratio := 1.5 |} ];
          stdout := [] |}.
Proof.
  split; [|split; [|split; [|split]]].
  - intros v st. apply process_ticker_not_str.
  - intros s st. unfold process_ticker. now rewrite upper_idempotent.
  - intros E' s st. apply process_ticker_same_responses.
  - intros s st st' H.
    destruct (process_ticker_inv E s st st' H) as [?|(r & Hr & ->)]; [now left|].
    right. exists r. split; [assumption|]. split; [|reflexivity].
    now destruct (completes_ratio E _ _ Hr).
  - reflexivity.
Qed.

Lemma non_strings_skipped_strings_uppercased_witness :
  is_str (VNum 123) = false /\
  process_ticker env_AAPL_MSFT (VNum 123) empty_state = Ok empty_state.
Proof.
  split; [reflexivity|].
  apply (proj1 (non_strings_skipped_strings_uppercased env_AAPL_MSFT)).
  reflexivity.
Defined.

(** C10.  Two runs over the same tickers, with the same four dates and the
    same answer to every request the loop makes, end alike: the same rows
    and printed lines, or the same exception, and the same sorted table. *)
Theorem scan_deterministic (E E' : env) (tickers : list value) :
  same_responses E E' tickers ->
  (forall st, scan E tickers st = scan E' tickers st) /\
  (forall sort,
      sorted_results_df sort E tickers = sorted_results_df sort E' tickers).
Proof.
  intros H.
  assert (Hscan : forall st, scan E tickers st = scan E' tickers st).
  { destruct H as (H1 & H2 & H3 & H4 & H).
    induction tickers as [|t tickers IH]; intros st; [reflexivity|].
    cbn [scan].
    rewrite (process_ticker_same_responses E E' t st).
    - destruct (process_ticker E' t st); cbn [bind]; [|reflexivity].
      apply IH. intros s Hs. apply H. now right.
    - do 4 (split; [assumption|]).
      intros s [Hs|[]]. apply H. now left. }
  split; [assumption|].
  intros sort. unfold sorted_results_df. now rewrite Hscan.
Qed.

Lemma scan_deterministic_witness :
  scan env_A_B [VStr "a"; VStr "b"] empty_state
  = scan env_A_B_C [VStr "a"; VStr "b"] empty_state.
Proof.
  apply (scan_deterministic env_A_B env_A_B_C [VStr "a"; VStr "b"]).
  do 4 (split; [reflexivity|]).
  intros s [Hs|[Hs|[]]]; inversion Hs; split; reflexivity.
Defined.

(** X6.  The rows of a scan that ends without an exception are the rows it
    started with, followed by one row for every entry of the ticker list
    that completes, in the order of the list; and when every entry is one
    that is passed over, skipped or completes, the scan ends without an
    exception. *)
Theorem scan_emits_rows_in_order (E : env) (tickers : list value) :
  (forall st st',
      scan E tickers st = Ok st' ->
      exists rows, emitted E tickers rows /\ results_df st' = results_df st ++ rows) /\
  (forall rows st,
      emitted E tickers rows ->
      exists st', scan E tickers st = Ok st' /\ results_df st' = results_df st ++ rows).
Proof.
  split.
  - intros st st'. apply scan_emitted.
  - intros rows st H. now apply emitted_scan.
Qed.

(** Prices that are not numbers are not isolated either: a non-empty string
    passes the test of line 121 and the division of line 122 raises
    [TypeError], which ends the scan before the next ticker. *)
Theorem string_price_stops_scan :
  spread_ratio (VStr "1.5") (VStr "3.0") = Raise TypeError /\
  scan env_string_prices [VStr "a"; VStr "b"] empty_state = Raise TypeError.
Proof. split; reflexivity. Qed.

End Scan.

(** * Properties of the sort and of the final table *)

Section Ranker.

(** ** The order of the keys *)

Lemma SFcompare_antisym (x y : spec_float) (c : comparison) :
  SFcompare x y = Some c -> SFcompare y x = Some (CompOpp c).
Proof.
  destruct x as [sx|sx| |sx mx ex], y as [sy|sy| |sy my ey]; simpl;
    try discriminate;
    try (destruct sx); try (destruct sy); simpl;
    intros H; inversion H; subst; clear H; try reflexivity.
  - rewrite (Z.compare_antisym ey ex).
    destruct (ey ?= ex) eqn:Ee; simpl; try reflexivity.
    rewrite CompOpp_involutive.
    change (PosDef.Pos.compare_cont Eq my mx) with (Pos.compare my mx).
    change (PosDef.Pos.compare_cont Eq mx my) with (Pos.compare mx my).
    now rewrite (Pos.compare_antisym mx my), CompOpp_involutive.
  - rewrite (Z.compare_antisym ey ex).
    destruct (ey ?= ex) eqn:Ee; simpl; try reflexivity.
    change (PosDef.Pos.compare_cont Eq my mx) with (Pos.compare my mx).
    change (PosDef.Pos.compare_cont Eq mx my) with (Pos.compare mx my).
    now rewrite (Pos.compare_antisym mx my).
Qed.

Lemma SFcompare_defined (x y : spec_float) :
  x <> S754_nan -> y <> S754_nan -> exists c, SFcompare x y = Some c.
Proof.
  destruct x, y; simpl; intros; try congruence; eauto.
Qed.

Lemma SFleb_trans (x y z : spec_float) :
  SFleb x y = true -> SFleb y z = true -> SFleb x z = true.
Proof.
  unfold SFleb.
  destruct x as [sx|sx| |sx mx ex], y as [sy|sy| |sy my ey], z as [sz|sz| |sz mz ez];
    simpl; try discriminate; try reflexivity;
    try (destruct sx); try (destruct sy); try (destruct sz); simpl;
    try discriminate; try reflexivity.
  all: assert (Hxy := Pos.compare_spec mx my);
    assert (Hyz := Pos.compare_spec my mz);
    assert (Hxz := Pos.compare_spec mx mz);
    unfold Pos.compare in Hxy, Hyz, Hxz.
  all: destruct (Z.compare_spec ex ey), (Z.compare_spec ey ez), (Z.compare_spec ex ez);
    simpl; try discriminate; try reflexivity; try lia.
  all: destruct Hxy, Hyz, Hxz;
    simpl; try discriminate; try reflexivity; try lia.
Qed.

Lemma not_nan_SF (x : float) :
  PrimFloat.is_nan x = false -> Prim2SF x <> S754_nan.
Proof.
  unfold PrimFloat.is_nan. rewrite eqb_spec. intros H Hx.
  rewrite Hx in H. discriminate.
Qed.

Lemma leb_total (x y : float) :
  PrimFloat.is_nan x = false -> PrimFloat.is_nan y = false ->
  PrimFloat.leb x y = true \/ PrimFloat.leb y x = true.
Proof.
  intros Hx Hy. rewrite !leb_spec. unfold SFleb.
  destruct (SFcompare_defined _ _ (not_nan_SF x Hx) (not_nan_SF y Hy)) as [c Hc].
  rewrite (SFcompare_antisym _ _ _ Hc), Hc. destruct c; simpl; auto.
Qed.

Lemma ratio_le_total (a b : float) :
  ratio_le a b = true \/ ratio_le b a = true.
Proof.
  unfold ratio_le.
  destruct (PrimFloat.is_nan b) eqn:Hb; [now left|].
  destruct (PrimFloat.is_nan a) eqn:Ha; [now right|].
  simpl. now apply leb_total.
Qed.

Lemma ratio_le_trans (a b c : float) :
  ratio_le a b = true -> ratio_le b c = true -> ratio_le a c = true.
Proof.
  unfold ratio_le.
  destruct (PrimFloat.is_nan c); [reflexivity|].
  destruct (PrimFloat.is_nan b); simpl; [discriminate|].
  destruct (PrimFloat.is_nan a); simpl; [discriminate|].
  rewrite !leb_spec. apply SFleb_trans.
Qed.

Lemma row_le_trans : Relations_1.Transitive row_le.
Proof. intros r1 r2 r3. apply ratio_le_trans. Qed.

(** ** Sorting by insertion *)

Section Insertion.

Variable before : row -> row -> bool.
Hypothesis before_le : forall r r', before r r' = true -> row_le r r'.
Hypothesis not_before_ge : forall r r', before r r' = false -> row_le r' r.

Lemma insert_row_perm (r : row) (df : list row) :
  Permutation (r :: df) (insert_row before r df).
Proof.
  induction df as [|r' df IH]; cbn [insert_row]; [reflexivity|].
  destruct (before r r'); [reflexivity|].
  rewrite perm_swap. now constructor.
Qed.

Lemma insert_row_HdRel (r0 r : row) (df : list row) :
  row_le r0 r -> HdRel row_le r0 df -> HdRel row_le r0 (insert_row before r df).
Proof.
  intros Hr Hd. destruct df as [|r' df]; cbn [insert_row].
  - now constructor.
  - destruct (before r r'); constructor; [assumption|now inversion Hd].
Qed.

Lemma insert_row_sorted (r : row) (df : list row) :
  Sorted row_le df -> Sorted row_le (insert_row before r df).
Proof.
  induction 1 as [|r' df Hs IH Hd]; cbn [insert_row].
  - repeat constructor.
  - destruct (before r r') eqn:Hb.
    + constructor; [now constructor|]. constructor. now apply before_le.
    + constructor; [assumption|].
      apply insert_row_HdRel; [now apply not_before_ge|assumption].
Qed.

Lemma insertion_sort_sorts : sorts_by_ratio (insertion_sort before).
Proof.
  intros df. induction df as [|r df [IHp IHs]]; cbn [insertion_sort fold_right].
  - split; constructor.
  - split.
    + rewrite <- insert_row_perm. now constructor.
    + now apply insert_row_sorted.
Qed.

End Insertion.

Lemma stable_sort_sorts : sorts_by_ratio stable_sort.
Proof.
  apply insertion_sort_sorts.
  - intros r r' H. exact H.
  - intros r r' H. unfold row_le.
    destruct (ratio_le_total (Spread_Ratio r) (Spread_Ratio r')); congruence.
Qed.

Lemma tie_reversing_sort_sorts : sorts_by_ratio tie_reversing_sort.
Proof.
  apply insertion_sort_sorts.
  - intros r r' H. apply negb_true_iff in H. unfold row_le.
    destruct (ratio_le_total (Spread_Ratio r) (Spread_Ratio r')); congruence.
  - intros r r' H. now apply negb_false_iff in H.
Qed.

(** ** The final table *)

Lemma sorted_results_df_of_scan
      (sort : list row -> list row) (E : env) (tickers : list value) (st : state) :
  sorts_by_ratio sort ->
  scan E tickers empty_state = Ok st ->
  sorted_results_df sort E tickers = Ok (sort (results_df st)) /\
  Permutation (results_df st) (sort (results_df st)) /\
  Sorted row_le (sort (results_df st)).
Proof.
  intros Hsort Hscan. destruct (Hsort (results_df st)) as [Hp Hs].
  unfold sorted_results_df. rewrite Hscan. now repeat split.
Qed.

(** ** Ties *)















(** ** What the order of the keys leaves open *)






Lemma sorted_permutation_unique (l1 l2 : list row) :
  StronglySorted row_le l1 ->
  StronglySorted row_le l2 ->
  Permutation l1 l2 ->
  (forall r r', In r l1 -> In r' l1 -> row_le r r' -> row_le r' r -> r = r') ->
  l1 = l2.
Proof.
  intros H1. revert l2.
  induction H1 as [|a l1 Hs1 IH Ha]; intros l2 H2 Hp Hties.
  - now rewrite (Permutation_nil Hp).
  - destruct H2 as [|b l2 Hs2 Hb].
    + symmetry in Hp. now apply Permutation_nil in Hp.
    + assert (Hab : a = b).
      { assert (Hin_a : In a (b :: l2))
          by (apply (Permutation_in _ Hp); now left).
        assert (Hin_b : In b (a :: l1))
          by (apply (Permutation_in _ (Permutation_sym Hp)); now left).
        destruct Hin_a as [->|Hin_a]; [reflexivity|].
        destruct Hin_b as [->|Hin_b]; [reflexivity|].
        rewrite Forall_forall in Ha, Hb.
        apply Hties; [now left|now right|auto..]. }
      subst b. f_equal.
      apply IH; [assumption|now apply Permutation_cons_inv in Hp|].
      intros r r' Hr Hr'. apply Hties; now right.
Qed.




(** C8, as the script has it.  When the run ends without an exception, the
    final table has a row for a ticker exactly when both requests for its
    upper-case symbol were served with status 200 and both extracted prices
    are truthy (present and not zero, negative ones included); every row
    carries the quotient of its two recorded prices as its ratio; and a
    ticker that was skipped has no row. *)
Theorem final_rows_are_completed_tickers
        (sort : list row -> list row) (E : env) (tickers : list value) (out : list row) :
  sorts_by_ratio sort ->
  sorted_results_df sort E tickers = Ok out ->
  (forall r, In r out <->
             exists s, In (VStr s) tickers /\ completes E (Py.upper s) r) /\
  (forall s w y,
      In (VStr s) tickers ->
      fetched E (short_term_URL E (Py.upper s)) w ->
      fetched E (long_term_URL E (Py.upper s)) y ->
      Py.truthy w = true -> Py.truthy y = true ->
      exists r, In r out /\ Ticker r = Py.upper s /\
                Week_Last_Price r = w /\ Year_Last_Price r = y) /\
  Forall (fun r => Py.truediv (Year_Last_Price r) (Week_Last_Price r)
                   = Ok (Spread_Ratio r)) out /\
  (forall s l, skipped E (Py.upper s) l ->
               forall r, In r out -> Ticker r <> Py.upper s).
Proof.
  intros Hsort Hrun. unfold sorted_results_df in Hrun.
  destruct (scan E tickers empty_state) as [st|e] eqn:Hscan; cbn [bind] in Hrun;
    [|discriminate].
  inversion Hrun; subst out; clear Hrun.
  destruct (Hsort (results_df st)) as [Hp _].
  assert (Hin : forall r, In r (sort (results_df st)) <->
                          exists s, In (VStr s) tickers /\ completes E (Py.upper s) r).
  { intros r. split.
    - intros H. apply (Permutation_in _ (Permutation_sym Hp)) in H.
      apply (scan_rows_in E _ _ _ Hscan) in H as [[]|H]. exact H.
    - intros H. apply (Permutation_in _ Hp).
      apply (scan_rows_in E _ _ _ Hscan). now right. }
  split; [exact Hin|]. split; [|split].
  - intros s w y Hs Hw Hy Htw Hty.
    destruct (scan_emitted E _ _ _ Hscan) as (rows & Hrows & Heq).
    cbn [empty_state results_df app] in Heq.
    destruct (emitted_has_row E _ _ s w y Hrows Hs Hw Hy Htw Hty) as (r & Hr & Hfields).
    exists r. split; [|exact Hfields].
    apply (Permutation_in _ Hp). now rewrite Heq.
  - apply (Permutation_Forall Hp).
    apply (scan_rows_ratio E tickers empty_state st Hscan). constructor.
  - intros s l Hl r Hr Heq. apply Hin in Hr as (s' & _ & Hc).
    destruct (completes_ratio E _ _ Hc) as [Ht _].
    rewrite Ht in Heq. rewrite Heq in Hc.
    exact (skipped_not_completes E _ _ _ Hl Hc).
Qed.

Lemma final_rows_are_completed_tickers_witness :
  Forall (fun r => Py.truediv (Year_Last_Price r) (Week_Last_Price r)
                   = Ok (Spread_Ratio r)) [row_B; row_A].
Proof.
  exact (proj1 (proj2 (proj2 (final_rows_are_completed_tickers
                                stable_sort env_A_B [VStr "a"; VStr "b"] [row_B; row_A]
                                stable_sort_sorts eq_refl)))).
Defined.

(** C8 fails as stated: with the prices -1 and 5 both requests are served and
    the final table, whatever sorts it, has the row of A with the ratio -5,
    which is not a positive ratio. *)
Lemma negative_ratio_row_is_emitted :
  (forall sort, sorts_by_ratio sort ->
     sorted_results_df sort env_negative [VStr "a"]
     = Ok [ {| Ticker := "A"; Week_Last_Price := VNum (-1);
               Year_Last_Price := VNum 5; Spread_Ratio := -5 |} ]) /\
  PrimFloat.ltb (-5) 0 = true.
Proof.
  split; [|reflexivity].
  intros sort Hsort.
  destruct (sorted_results_df_of_scan
              sort env_negative [VStr "a"]
              {| results_df := [ {| Ticker := "A"; Week_Last_Price := VNum (-1);
                                    Year_Last_Price := VNum 5; Spread_Ratio := -5 |} ];
                 stdout := [] |} Hsort eq_refl) as (Hrun & Hp & _).
  rewrite Hrun. cbn [results_df] in *.
  now rewrite (Permutation_length_1_inv Hp).
Qed.

(** X5.  With no ticker to scan the run ends with the empty table. *)
Theorem no_tickers_empty_table (sort : list row -> list row) (E : env) :
  sorts_by_ratio sort ->
  sorted_results_df sort E [] = Ok [].
Proof.
  intros Hsort. unfold sorted_results_df. cbn.
  destruct (Hsort []) as [Hp _]. now rewrite (Permutation_nil Hp).
Qed.

Lemma no_tickers_empty_table_witness :
  sorted_results_df stable_sort env_A_B [] = Ok [].
Proof.
  apply no_tickers_empty_table. apply stable_sort_sorts.
Defined.

(** The scenario of two tickers: A yields 1.0 and 4.0 (ratio 4.0), B yields
    2.0 and 3.0 (ratio 1.5); whatever sorts the table into the order of the
    keys, the final table is B, then A. *)
Theorem scenario_A_B_ranked (sort : list row -> list row) :
  sorts_by_ratio sort ->
  sorted_results_df sort env_A_B [VStr "A"; VStr "B"] = Ok [row_B; row_A].
Proof.
  intros Hsort.
  destruct (sorted_results_df_of_scan
              sort env_A_B [VStr "A"; VStr "B"]
              {| results_df := [row_A; row_B]; stdout := [] |} Hsort eq_refl)
    as (Hrun & Hp & Hs).
  rewrite Hrun. cbn [results_df] in *.
  destruct (Permutation_length_2_inv Hp) as [Heq|Heq]; rewrite Heq in *.
  - inversion Hs as [|? ? _ Hd]; subst. inversion Hd as [|? ? Hle]; subst.
    discriminate Hle.
  - reflexivity.
Qed.

Lemma scenario_A_B_ranked_witness :
  sorted_results_df tie_reversing_sort env_A_B [VStr "A"; VStr "B"]
  = Ok [row_B; row_A].
Proof.
  apply scenario_A_B_ranked. apply tie_reversing_sort_sorts.
Defined.

End Ranker.

(** * More on the extractor *)

Section ExtractorMore.

Lemma chars_not_dict (s : string) (fields : list (string * value)) :
  ~ In (VDict fields) (Py.chars s).
Proof.
  induction s as [|c s IH]; cbn [Py.chars In]; [tauto|].
  intros [H|H]; [discriminate|auto].
Qed.

(** The records [for option in options_list] runs through are those of a
    list: the keys of a dict and the characters of a string are no dicts. *)
Lemma iter_dict_member (options_list : value) (options : list value)
      (fields : list (string * value)) :
  Py.iter options_list = Ok options ->
  In (VDict fields) options ->
  options_list = VList options.
Proof.
  destruct options_list; cbn [Py.iter]; intros H Hin; inversion H; subst.
  - destruct (chars_not_dict _ _ Hin).
  - reflexivity.
  - apply in_map_iff in Hin as (kv & Hkv & _). discriminate.
Qed.

Lemma scan_options_from (l : list value) (price v : value) :
  scan_options l price = Ok v ->
  v = price \/
  exists fields, In (VDict fields) l /\ Py.lookup "last" fields = Some v.
Proof.
  induction l as [|o l IH]; cbn [scan_options]; intros H.
  - inversion H. now left.
  - destruct o; cbn [Py.contains bind] in H; try discriminate.
    + destruct (Py.substring_of "last" s); cbn [Py.getitem] in H; [discriminate|].
      destruct (IH H) as [?|(f & Hf & Hl)]; [now left|].
      right. exists f. split; [now right|assumption].
    + destruct (existsb (Py.str_eq "last") l0); cbn [Py.getitem] in H; [discriminate|].
      destruct (IH H) as [?|(f & Hf & Hl)]; [now left|].
      right. exists f. split; [now right|assumption].
    + cbn [Py.getitem] in H.
      destruct (Py.lookup "last" items) as [x|] eqn:Hx.
      * inversion H; subst. right. exists items. split; [now left|assumption].
      * destruct (IH H) as [?|(f & Hf & Hl)]; [now left|].
        right. exists f. split; [now right|assumption].
Qed.

Lemma scan_strikes_from (strikes : list (string * value)) (price v : value) :
  scan_strikes strikes price = Ok v ->
  v = price \/
  exists k l fields,
    In (k, VList l) strikes /\ In (VDict fields) l /\
    Py.lookup "last" fields = Some v.
Proof.
  revert price. induction strikes as [|[k ol] strikes IH]; intros price H.
  - inversion H. now left.
  - cbn [scan_strikes] in H.
    destruct (Py.iter ol) as [options|e] eqn:Hi; cbn [bind] in H; [|discriminate].
    destruct (scan_options options price) as [p1|e] eqn:Ho; cbn [bind] in H;
      [|discriminate].
    destruct (IH _ H) as [->|(k' & l & f & Hk & Hf & Hl)].
    + destruct (scan_options_from _ _ _ Ho) as [?|(f & Hf & Hl)]; [now left|].
      right. exists k, options, f.
      rewrite <- (iter_dict_member _ _ _ Hi Hf). repeat split; [now left|assumption..].
    + right. exists k', l, f. repeat split; [now right|assumption..].
Qed.

Lemma scan_expirations_from (exps : list (string * value)) (price v : value) :
  scan_expirations exps price = Ok v ->
  v = price \/
  exists e strikes k l fields,
    In (e, VDict strikes) exps /\ In (k, VList l) strikes /\
    In (VDict fields) l /\ Py.lookup "last" fields = Some v.
Proof.
  revert price. induction exps as [|[e m] exps IH]; intros price H.
  - inversion H. now left.
  - cbn [scan_expirations] in H.
    destruct m; cbn [Py.items bind] in H; try discriminate.
    destruct (scan_strikes items price) as [p1|err] eqn:Hs; cbn [bind] in H;
      [|discriminate].
    assert (Hp1 : p1 = price \/
                  exists e' strikes k l fields,
                    In (e', VDict strikes) ((e, VDict items) :: exps) /\
                    In (k, VList l) strikes /\
                    In (VDict fields) l /\ Py.lookup "last" fields = Some p1).
    { destruct (scan_strikes_from _ _ _ Hs) as [?|(k & l & f & Hk & Hf & Hl)];
        [now left|].
      right. exists e, items, k, l, f. repeat split; [now left|assumption..]. }
    destruct (Py.is_not_None p1).
    + inversion H; subst. exact Hp1.
    + destruct (IH _ H) as [->|(e' & st & k & l & f & He & Hk & Hf & Hl)];
        [exact Hp1|].
      right. exists e', st, k, l, f. repeat split; [now right|assumption..].
Qed.

Lemma extract_last_price_from (response_data v : value) :
  extract_last_price response_data = Ok v ->
  v = VNone \/ quoted_in response_data v.
Proof.
  unfold extract_last_price. intros H.
  destruct response_data; cbn [Py.get bind] in H; try discriminate.
  destruct (Py.lookup "callExpDateMap" items) as [m|] eqn:Hm; cbn [bind] in H.
  - destruct m; cbn [Py.items bind] in H; try discriminate.
    destruct (scan_expirations_from _ _ _ H)
      as [?|(e & st & k & l & f & He & Hk & Hf & Hl)]; [now left|].
    right. exists items, items0, e, st, k, l, f. repeat split; assumption.
  - cbn in H. inversion H. now left.
Qed.

(** X8.  Whatever the body, a price the extractor returns is [None] or a
    value that stands under ["last"] in a record of a strike of an expiration
    of that body: it makes no price up. *)
Theorem extract_last_price_sound (response_data v : value) :
  extract_last_price response_data = Ok v ->
  v = VNone \/ quoted_in response_data v.
Proof. apply extract_last_price_from. Qed.

Lemma extract_last_price_sound_witness :
  VNum 2.5 = VNone \/ quoted_in two_strike_chain (VNum 2.5).
Proof.
  apply extract_last_price_sound. reflexivity.
Defined.

(** X11.  On a body of the expected nesting in which no record has a value
    under ["last"], the extractor returns [None]. *)
Theorem extract_last_price_nothing_quoted (response_data : value) :
  is_chain_response response_data = true ->
  (forall v, ~ quoted_in response_data v) ->
  extract_last_price response_data = Ok VNone.
Proof.
  intros Hshape Hnone.
  destruct (extract_last_price_total _ Hshape) as [p Hp].
  destruct (extract_last_price_from _ _ Hp) as [->|Hq]; [assumption|].
  destruct (Hnone _ Hq).
Qed.

Lemma extract_last_price_nothing_quoted_witness :
  extract_last_price unquoted_chain = Ok VNone.
Proof.
  apply extract_last_price_nothing_quoted; [reflexivity|].
  intros v (items & exps & e & strikes & k & l & f & Hd & Hm & He & Hk & Hf & Hl).
  inversion Hd; subst items. cbn in Hm. inversion Hm; subst exps.
  destruct He as [He|[]]. inversion He; subst.
  destruct Hk as [Hk|[]]. inversion Hk; subst.
  destruct Hf as [Hf|[]]. inversion Hf; subst.
  discriminate Hl.
Defined.

Lemma scan_options_raises (l : list value) (price : value) (e : exn) :
  scan_options l price = Raise e -> e = TypeError.
Proof.
  induction l as [|o l IH]; cbn [scan_options]; intros H; [discriminate|].
  destruct o; cbn [Py.contains bind] in H; try (now inversion H).
  - destruct (Py.substring_of "last" s); cbn [Py.getitem] in H;
      [now inversion H|auto].
  - destruct (existsb (Py.str_eq "last") l0); cbn [Py.getitem] in H;
      [now inversion H|auto].
  - cbn [Py.getitem] in H.
    destruct (Py.lookup "last" items); [discriminate|auto].
Qed.

Lemma scan_strikes_raises (strikes : list (string * value)) (price : value) (e : exn) :
  scan_strikes strikes price = Raise e -> e = TypeError.
Proof.
  revert price. induction strikes as [|[k ol] strikes IH]; intros price H;
    [discriminate|].
  cbn [scan_strikes] in H.
  destruct (Py.iter ol) as [options|err] eqn:Hi; cbn [bind] in H.
  - destruct (scan_options options price) as [p1|err] eqn:Ho; cbn [bind] in H.
    + eauto.
    + inversion H; subst. eapply scan_options_raises; eassumption.
  - inversion H; subst. destruct ol; cbn in Hi; now inversion Hi.
Qed.

Lemma scan_expirations_raises (exps : list (string * value)) (price : value) (e : exn) :
  scan_expirations exps price = Raise e ->
  e = AttributeError \/ e = TypeError.
Proof.
  revert price. induction exps as [|[k m] exps IH]; intros price H; [discriminate|].
  cbn [scan_expirations] in H.
  destruct m; cbn [Py.items bind] in H; try (inversion H; now left).
  destruct (scan_strikes items price) as [p1|err] eqn:Hs; cbn [bind] in H.
  - destruct (Py.is_not_None p1); [discriminate|eauto].
  - inversion H; subst. right. eapply scan_strikes_raises; eassumption.
Qed.

Lemma extract_last_price_exn (response_data : value) (e : exn) :
  extract_last_price response_data = Raise e ->
  e = AttributeError \/ e = TypeError.
Proof.
  unfold extract_last_price. intros H.
  destruct response_data; cbn [Py.get bind] in H; try (inversion H; now left).
  destruct (Py.lookup "callExpDateMap" items) as [m|]; cbn [bind] in H.
  - destruct m; cbn [Py.items bind] in H; try (inversion H; now left).
    eapply scan_expirations_raises; eassumption.
  - discriminate.
Qed.

(** X9.  Whatever the body, the extractor raises nothing but
    [AttributeError] (a value that is no dict where [.get] or [.items] is
    called) and [TypeError]; the lookup [option["last"]] never raises
    [KeyError], the test before it sees to that. *)
Theorem extract_last_price_raises (response_data : value) (e : exn) :
  extract_last_price response_data = Raise e ->
  (e = AttributeError \/ e = TypeError) /\ e <> KeyError.
Proof.
  intros H. destruct (extract_last_price_exn _ _ H) as [->| ->];
    split; auto; discriminate.
Qed.

Lemma extract_last_price_raises_witness :
  (TypeError = AttributeError \/ TypeError = TypeError) /\ TypeError <> KeyError.
Proof.
  apply (extract_last_price_raises (single_strike_chain [VStr "blast"])).
  reflexivity.
Defined.

Lemma scan_expirations_found (exps more : list (string * value)) (v : value) :
  scan_expirations exps VNone = Ok v ->
  Py.is_not_None v = true ->
  scan_expirations (exps ++ more) VNone = Ok v.
Proof.
  induction exps as [|[k m] exps IH]; intros H Hv.
  - inversion H; subst. discriminate.
  - cbn [scan_expirations app] in *.
    destruct (Py.items m) as [strike_items|err]; cbn [bind] in *; [|discriminate].
    destruct (scan_strikes strike_items VNone) as [p1|err]; cbn [bind] in *;
      [|discriminate].
    destruct (Py.is_not_None p1) eqn:Hp1; [assumption|].
    destruct p1; try discriminate. now apply IH.
Qed.

(** X10.  Once an expiration has given a price that is not [None], the
    expirations after it are not looked at: whatever is appended to the
    expirations of the body, well formed or not, the extractor returns the
    same price. *)
Theorem extract_last_price_stops_at_first_price
        (expirations more : list (string * value)) (v : value) :
  extract_last_price (chain_of expirations) = Ok v ->
  Py.is_not_None v = true ->
  extract_last_price (chain_of (expirations ++ more)) = Ok v.
Proof.
  unfold extract_last_price, chain_of.
  cbn [Py.get Py.lookup String.eqb Ascii.eqb Bool.eqb bind Py.items].
  apply scan_expirations_found.
Qed.

Lemma extract_last_price_stops_at_first_price_witness :
  extract_last_price
    (chain_of ([("2024-10-11:7", VDict [("150.0", VList [VDict [("last", VNum 1.5)]])])]
                 ++ [("2024-10-18:14", VNone)]))
  = Ok (VNum 1.5).
Proof.
  apply extract_last_price_stops_at_first_price; reflexivity.
Defined.

End ExtractorMore.

(** * More on the ratio and on the loop *)

Section LoopMore.

Lemma truthy_not_zero (w : value) (m : Py.number) :
  Py.truthy w = true -> Py.as_number w = Some m -> Py.is_zero m = false.
Proof.
  destruct w; cbn [Py.truthy Py.as_number]; try discriminate;
    intros Ht H; inversion H; subst; cbn [Py.is_zero].
  - reflexivity.
  - now apply negb_true_iff.
  - now apply negb_true_iff.
Qed.

(** An [int] that is no double as it stands is an integer literal: the
    booleans are 0 and 1. *)
Lemma big_int_is_VInt (v : value) (k : Z) :
  Py.as_number v = Some (Py.NInt k) -> Py.fits_double k = false -> v = VInt k.
Proof.
  destruct v; cbn [Py.as_number]; try discriminate; intros H Hk; inversion H; subst.
  - destruct b; discriminate.
  - reflexivity.
Qed.

Lemma float_of_int_exn (n : Z) (e : exn) :
  Py.float_of_int n = Raise e -> e = OverflowError /\ Py.fits_double n = false.
Proof.
  unfold Py.float_of_int. destruct (Py.fits_double n); [discriminate|].
  destruct (Py.nearest_double n); intros H; inversion H. auto.
Qed.

Lemma int_truediv_exn (m n : Z) (e : exn) :
  (n =? 0) = false ->
  Py.int_truediv m n = Raise e ->
  e = OverflowError /\ (Py.fits_double m = false \/ Py.fits_double n = false).
Proof.
  unfold Py.int_truediv. intros ->.
  destruct (Py.fits_double m) eqn:Hm; [destruct (Py.fits_double n) eqn:Hn|];
    cbn [andb]; try discriminate;
    destruct (SFdiv prec emax (Py.spec_of_int m) (Py.spec_of_int n));
    intros H; inversion H; auto.
Qed.

(** What the division of line 122 can raise when the divisor is truthy. *)
Lemma truediv_exn (y w : value) (e : exn) :
  Py.truthy w = true ->
  Py.truediv y w = Raise e ->
  (e = TypeError /\ (Py.as_number w = None \/ Py.as_number y = None)) \/
  (e = OverflowError /\
   exists n, (w = VInt n \/ y = VInt n) /\ Py.fits_double n = false).
Proof.
  intros Hw. unfold Py.truediv.
  destruct (Py.as_number y) as [[m|a]|] eqn:Hy;
    destruct (Py.as_number w) as [[n|b]|] eqn:Hn;
    try (intros H; inversion H; left; auto; fail).
  - pose proof (truthy_not_zero _ _ Hw Hn) as Hz. cbn [Py.is_zero] in Hz.
    intros H. destruct (int_truediv_exn _ _ _ Hz H) as [-> [Hk|Hk]]; right;
      (split; [reflexivity|]).
    + exists m. rewrite (big_int_is_VInt _ _ Hy Hk). auto.
    + exists n. rewrite (big_int_is_VInt _ _ Hn Hk). auto.
  - cbn [Py.to_float]. destruct (Py.float_of_int m) as [x|err] eqn:Hm; cbn [bind].
    + rewrite (truthy_not_zero _ _ Hw Hn). discriminate.
    + intros H. inversion H; subst.
      destruct (float_of_int_exn _ _ Hm) as [-> Hk]. right.
      split; [reflexivity|]. exists m. rewrite (big_int_is_VInt _ _ Hy Hk). auto.
  - cbn [Py.to_float bind]. destruct (Py.float_of_int n) as [x|err] eqn:Hm; cbn [bind].
    + rewrite (truthy_not_zero _ _ Hw Hn). discriminate.
    + intros H. inversion H; subst.
      destruct (float_of_int_exn _ _ Hm) as [-> Hk]. right.
      split; [reflexivity|]. exists n. rewrite (big_int_is_VInt _ _ Hn Hk). auto.
  - cbn [Py.to_float bind]. rewrite (truthy_not_zero _ _ Hw Hn). discriminate.
Qed.

Lemma spread_ratio_exn (w y : value) (e : exn) :
  spread_ratio w y = Raise e ->
  Py.truthy w && Py.truthy y = true /\
  ((e = TypeError /\ (Py.as_number w = None \/ Py.as_number y = None)) \/
   (e = OverflowError /\
    exists n, (w = VInt n \/ y = VInt n) /\ Py.fits_double n = false)).
Proof.
  unfold spread_ratio.
  destruct (Py.truthy w && Py.truthy y) eqn:Ht; [|discriminate].
  apply andb_prop in Ht as [Hw Hy].
  destruct (Py.truediv y w) as [q|err] eqn:Hq; cbn [bind]; [discriminate|].
  intros H. inversion H; subst. split; [reflexivity|].
  exact (truediv_exn _ _ _ Hw Hq).
Qed.

(** X2.  The computation of the ratio raises nothing but [TypeError] and
    [OverflowError]: [TypeError] exactly when both prices are truthy and one
    of them is not a number, [OverflowError] only when a price is an integer
    of 2^53 or more in magnitude, as with the prices 1 and 10^400.  It never
    divides by zero, since a zero price is not truthy. *)
Theorem spread_ratio_raises :
  (forall w y e,
      spread_ratio w y = Raise e ->
      Py.truthy w && Py.truthy y = true /\
      ((e = TypeError /\ (Py.as_number w = None \/ Py.as_number y = None)) \/
       (e = OverflowError /\
        exists n, (w = VInt n \/ y = VInt n) /\ Py.fits_double n = false))) /\
  (forall w y,
      Py.truthy w && Py.truthy y = true ->
      Py.as_number w = None \/ Py.as_number y = None ->
      spread_ratio w y = Raise TypeError) /\
  spread_ratio (VInt 1) (VInt (10 ^ 400)) = Raise OverflowError /\
  spread_ratio (VNum 1) (VInt (10 ^ 400)) = Raise OverflowError.
Proof.
  split; [exact spread_ratio_exn|]. split; [|split; reflexivity].
  intros w y Ht Hn. unfold spread_ratio, Py.truediv. rewrite Ht.
  destruct Hn as [Hn|Hn]; rewrite Hn.
  - destruct (Py.as_number y) as [[m|a]|]; reflexivity.
  - reflexivity.
Qed.

Lemma truediv_numbers (y w : value) (q : float) :
  Py.truediv y w = Ok q ->
  exists m n, Py.as_number w = Some m /\ Py.as_number y = Some n.
Proof.
  unfold Py.truediv.
  destruct (Py.as_number y) as [n|], (Py.as_number w) as [m|];
    try discriminate; [eauto|destruct n; discriminate].
Qed.

Lemma float_of_int_fits (n : Z) :
  Py.fits_double n = true -> Py.float_of_int n = Ok (Py.exact_float n).
Proof. unfold Py.float_of_int. now intros ->. Qed.

(** On operands that are doubles as they stand, [/] is the division of
    doubles. *)
Lemma truediv_as_float (y w : value) (q a b : float) :
  Py.truediv y w = Ok q ->
  Py.as_float y = Some a -> Py.as_float w = Some b ->
  q = PrimFloat.div a b.
Proof.
  unfold Py.truediv, Py.as_float.
  destruct (Py.as_number y) as [[m|a']|]; try discriminate;
    destruct (Py.as_number w) as [[n|b']|]; try discriminate.
  - unfold Py.int_truediv.
    destruct (Py.fits_double m); [|discriminate].
    destruct (Py.fits_double n); [|discriminate]. cbn [andb].
    destruct (n =? 0); [discriminate|].
    intros H Ha Hb. inversion H. inversion Ha. inversion Hb. reflexivity.
  - cbn [Py.to_float Py.is_zero].
    destruct (Py.fits_double m) eqn:Hm; [|discriminate].
    rewrite (float_of_int_fits _ Hm). cbn [bind].
    destruct (PrimFloat.eqb b' 0); [discriminate|].
    intros H Ha Hb. inversion H. inversion Ha. inversion Hb. reflexivity.
  - cbn [Py.to_float Py.is_zero bind].
    destruct (Py.fits_double n) eqn:Hm; [|discriminate].
    rewrite (float_of_int_fits _ Hm). cbn [bind].
    destruct (n =? 0); [discriminate|].
    intros H Ha Hb. inversion H. inversion Ha. inversion Hb. reflexivity.
  - cbn [Py.to_float Py.is_zero bind].
    destruct (PrimFloat.eqb b' 0); [discriminate|].
    intros H Ha Hb. inversion H. inversion Ha. inversion Hb. reflexivity.
Qed.

Lemma completes_fields (E : env) (ticker : string) (r : row) :
  completes E ticker r ->
  Ticker r = ticker /\
  Py.truthy (Week_Last_Price r) = true /\
  Py.truthy (Year_Last_Price r) = true /\
  (exists m n, Py.as_number (Week_Last_Price r) = Some m /\
               Py.as_number (Year_Last_Price r) = Some n) /\
  Py.truediv (Year_Last_Price r) (Week_Last_Price r) = Ok (Spread_Ratio r) /\
  (forall x y, Py.as_float (Week_Last_Price r) = Some x ->
               Py.as_float (Year_Last_Price r) = Some y ->
               Spread_Ratio r = PrimFloat.div y x).
Proof.
  intros [w y q _ _ Hw Hy Hq]. cbn.
  repeat split; try assumption.
  - exact (truediv_numbers _ _ _ Hq).
  - intros a b Ha Hb. exact (truediv_as_float _ _ _ _ _ Hq Hb Ha).
Qed.

(** X12.  In the final table of a run that ends without an exception, every
    row has a ticker in upper case, two prices that are numbers and are not
    zero, and for ratio the quotient of the long-term price by the
    short-term price, which is the division of doubles when both prices are
    doubles: no row holds a missing price or a price that is a string, a
    list or a dict. *)
Theorem final_rows_well_formed
        (sort : list row -> list row) (E : env) (tickers : list value) (out : list row) :
  sorts_by_ratio sort ->
  sorted_results_df sort E tickers = Ok out ->
  Forall (fun r =>
            Py.upper (Ticker r) = Ticker r /\
            Py.truthy (Week_Last_Price r) = true /\
            Py.truthy (Year_Last_Price r) = true /\
            (exists m n, Py.as_number (Week_Last_Price r) = Some m /\
                         Py.as_number (Year_Last_Price r) = Some n) /\
            Py.truediv (Year_Last_Price r) (Week_Last_Price r)
            = Ok (Spread_Ratio r) /\
            (forall x y, Py.as_float (Week_Last_Price r) = Some x ->
                         Py.as_float (Year_Last_Price r) = Some y ->
                         Spread_Ratio r = PrimFloat.div y x)) out.
Proof.
  intros Hsort Hrun. unfold sorted_results_df in Hrun.
  destruct (scan E tickers empty_state) as [st|e] eqn:Hscan; cbn [bind] in Hrun;
    [|discriminate].
  inversion Hrun; subst out; clear Hrun.
  destruct (Hsort (results_df st)) as [Hp _].
  apply (Permutation_Forall Hp). apply Forall_forall. intros r Hr.
  apply (scan_rows_in E _ _ _ Hscan) in Hr as [[]|(s & _ & Hc)].
  destruct (completes_fields _ _ _ Hc) as (Ht & Hrest).
  split; [|exact Hrest]. rewrite Ht. apply upper_idempotent.
Qed.

Lemma final_rows_well_formed_witness :
  Forall (fun r =>
            Py.upper (Ticker r) = Ticker r /\
            Py.truthy (Week_Last_Price r) = true /\
            Py.truthy (Year_Last_Price r) = true /\
            (exists m n, Py.as_number (Week_Last_Price r) = Some m /\
                         Py.as_number (Year_Last_Price r) = Some n) /\
            Py.truediv (Year_Last_Price r) (Week_Last_Price r)
            = Ok (Spread_Ratio r) /\
            (forall x y, Py.as_float (Week_Last_Price r) = Some x ->
                         Py.as_float (Year_Last_Price r) = Some y ->
                         Spread_Ratio r = PrimFloat.div y x)) [row_B; row_A].
Proof.
  exact (final_rows_well_formed stable_sort env_A_B [VStr "a"; VStr "b"]
           [row_B; row_A] stable_sort_sorts eq_refl).
Defined.

(** X13.  A scan that ends without an exception only adds to the table and
    to what is printed, and it accounts for every string of the ticker list
    once: the rows added and the lines printed are together as many as the
    strings in the list. *)
Theorem scan_accounts_for_every_string
        (E : env) (tickers : list value) (st st' : state) :
  scan E tickers st = Ok st' ->
  exists rows lines,
    results_df st' = results_df st ++ rows /\
    stdout st' = stdout st ++ lines /\
    (List.length rows + List.length lines)%nat = count_str tickers.
Proof.
  revert st. induction tickers as [|t tickers IH]; intros st H.
  - inversion H; subst. exists [], []. now rewrite !app_nil_r.
  - cbn [scan] in H.
    destruct (process_ticker E t st) as [st1|e] eqn:Hp; cbn [bind] in H; [|discriminate].
    destruct (IH _ H) as (rows & lines & Hr & Hl & Hn). clear IH H.
    unfold count_str in *. cbn [filter].
    destruct (is_str t) eqn:Ht.
    + destruct t; try discriminate.
      destruct (process_ticker_inv _ _ _ _ Hp) as [(l & _ & ->)|(r & _ & ->)];
        cbn [print concat results_df stdout] in Hr, Hl.
      * exists rows, (l :: lines). rewrite Hr, Hl, <- app_assoc.
        repeat split. cbn [List.length]. lia.
      * exists (r :: rows), lines. rewrite Hr, Hl, <- app_assoc.
        repeat split. cbn [List.length]. lia.
    + rewrite (process_ticker_not_str _ _ _ Ht) in Hp. inversion Hp; subst.
      now exists rows, lines.
Qed.

Lemma scan_accounts_for_every_string_witness :
  exists rows lines,
    [row_B] = [] ++ rows /\
    [Short_term_request_failed "XYZ" 500] = [] ++ lines /\
    (List.length rows + List.length lines)%nat
    = count_str [VStr "xyz"; VNum 123; VStr "b"].
Proof.
  exact (scan_accounts_for_every_string
           env_XYZ_refused [VStr "xyz"; VNum 123; VStr "b"] empty_state
           {| results_df := [row_B];
              stdout := [Short_term_request_failed "XYZ" 500] |} eq_refl).
Defined.

(** X14.  The loop does not merge entries: strings that are the same symbol
    once in upper case, for a symbol that completes, each add the same row
    again. *)
Theorem repeated_symbol_repeats_row
        (E : env) (symbols : list string) (ticker : string) (r : row) (st : state) :
  (forall s, In s symbols -> Py.upper s = ticker) ->
  completes E ticker r ->
  result_map results_df (scan E (map VStr symbols) st)
  = Ok (results_df st ++ repeat r (List.length symbols)).
Proof.
  intros Hs Hc. revert st.
  induction symbols as [|s symbols IH]; intros st; cbn [map scan].
  - cbn. now rewrite app_nil_r.
  - rewrite (process_ticker_completes E s r st).
    + cbn [bind]. rewrite IH.
      * cbn [concat results_df List.length repeat]. now rewrite <- app_assoc.
      * intros s' Hin. apply Hs. now right.
    + rewrite (Hs s (or_introl eq_refl)). exact Hc.
Qed.

Lemma repeated_symbol_repeats_row_witness :
  result_map results_df (scan env_A_B (map VStr ["a"; "A"]) empty_state)
  = Ok ([] ++ repeat row_A (List.length ["a"; "A"])).
Proof.
  apply (repeated_symbol_repeats_row env_A_B ["a"; "A"] "A" row_A empty_state).
  - intros s [<-|[<-|[]]]; reflexivity.
  - apply (completes_row env_A_B "A" (VNum 1) (VNum 4) 4%float);
      try reflexivity.
    + exists (quote (VNum 1)). eexists. repeat split; reflexivity.
    + exists (quote (VNum 4)). eexists. repeat split; reflexivity.
Defined.

Lemma priced_chain_quoted (d v : value) :
  priced_chain d = true -> quoted_in d v -> price_like v = true.
Proof.
  intros Hp (items & exps & e & strikes & k & l & f & -> & Hm & He & Hk & Hf & Hl).
  unfold priced_chain in Hp. rewrite Hm in Hp.
  rewrite forallb_forall in Hp. specialize (Hp _ He). cbn [snd priced_strikes] in Hp.
  rewrite forallb_forall in Hp. specialize (Hp _ Hk). cbn [snd priced_options] in Hp.
  rewrite forallb_forall in Hp. specialize (Hp _ Hf). cbn [priced_record] in Hp.
  now rewrite Hl in Hp.
Qed.

Lemma well_served_outcome (E : env) (url : string) :
  well_served E url ->
  (exists status, refused E url status) \/
  (exists v, fetched E url v /\ price_like v = true).
Proof.
  intros (r & Hr & H200).
  destruct (Z.eq_dec (status_code r) 200) as [Hs|Hs].
  - destruct (H200 Hs) as (d & Hd & Hshape & Hpriced).
    destruct (extract_last_price_total _ Hshape) as [p Hp].
    right. exists p. split; [now exists r, d|].
    destruct (extract_last_price_from _ _ Hp) as [->|Hq]; [reflexivity|].
    exact (priced_chain_quoted _ _ Hpriced Hq).
  - left. exists (status_code r), r. auto.
Qed.

Lemma price_number (v : value) :
  price_like v = true -> Py.truthy v = true ->
  exists m, Py.as_number v = Some m /\
            forall k, m = Py.NInt k -> Py.fits_double k = true.
Proof.
  destruct v as [|b|n|x|s|l|items];
    cbn [price_like Py.truthy Py.as_number]; try discriminate;
    intros Hp Ht; eexists; (split; [reflexivity|]); intros k Hk; inversion Hk.
  - now destruct b.
  - now subst.
Qed.

Lemma price_truediv (w y : value) :
  price_like w = true -> price_like y = true ->
  Py.truthy w = true -> Py.truthy y = true ->
  exists q, Py.truediv y w = Ok q.
Proof.
  intros Hpw Hpy Hw Hy.
  destruct (price_number _ Hpw Hw) as (n & Hn & Hfn).
  destruct (price_number _ Hpy Hy) as (m & Hm & Hfm).
  pose proof (truthy_not_zero _ _ Hw Hn) as Hz.
  unfold Py.truediv. rewrite Hm, Hn.
  destruct m as [m|a], n as [n|b]; cbn [Py.to_float Py.is_zero bind] in *.
  - unfold Py.int_truediv.
    rewrite Hz, (Hfm _ eq_refl), (Hfn _ eq_refl). cbn [andb]. eauto.
  - rewrite (float_of_int_fits _ (Hfm _ eq_refl)). cbn [bind]. rewrite Hz. eauto.
  - rewrite (float_of_int_fits _ (Hfn _ eq_refl)). cbn [bind]. rewrite Hz. eauto.
  - rewrite Hz. eauto.
Qed.

Lemma well_served_ticker (E : env) (ticker : string) :
  well_served E (short_term_URL E ticker) ->
  well_served E (long_term_URL E ticker) ->
  (exists l, skipped E ticker l) \/ (exists r, completes E ticker r).
Proof.
  intros Hs Hl.
  destruct (well_served_outcome _ _ Hs) as [(n & Hn)|(w & Hw & Hpw)].
  { left. eexists. now apply (skipped_short_term _ _ n). }
  destruct (well_served_outcome _ _ Hl) as [(n & Hn)|(y & Hy & Hpy)].
  { left. eexists. now apply (skipped_long_term _ _ w n). }
  destruct (Py.truthy w && Py.truthy y) eqn:Ht.
  - apply andb_prop in Ht as [Htw Hty].
    destruct (price_truediv _ _ Hpw Hpy Htw Hty) as [q Hq].
    right. eexists. now apply (completes_row _ _ w y q).
  - left. eexists. now apply (skipped_missing_data _ _ w y).
Qed.

(** X15.  When every request for the strings of the ticker list is answered,
    and answered, with status 200, by a body of the expected nesting whose
    values under ["last"] are null, booleans, floats or integers below 2^53
    in magnitude, the scan ends without an exception, and so does the run. *)
Theorem scan_total_when_well_served
        (sort : list row -> list row) (E : env) (tickers : list value) :
  (forall s, In (VStr s) tickers ->
             well_served E (short_term_URL E (Py.upper s)) /\
             well_served E (long_term_URL E (Py.upper s))) ->
  (forall st, exists st', scan E tickers st = Ok st') /\
  exists out, sorted_results_df sort E tickers = Ok out.
Proof.
  intros H.
  assert (Hrows : exists rows, emitted E tickers rows).
  { induction tickers as [|t tickers IH]; [exists []; constructor|].
    destruct IH as [rows Hrows]; [intros s Hs; apply H; now right|].
    destruct (is_str t) eqn:Ht.
    - destruct t; try discriminate.
      destruct (H s (or_introl eq_refl)) as [Hs Hl].
      destruct (well_served_ticker _ _ Hs Hl) as [(l & Hsk)|(r & Hc)].
      + exists rows. now apply (emitted_skipped E s l).
      + exists (r :: rows). now apply emitted_row.
    - exists rows. now apply emitted_not_str. }
  destruct Hrows as [rows Hrows]. split.
  - intros st. destruct (emitted_scan E _ _ st Hrows) as (st' & Hst' & _). eauto.
  - unfold sorted_results_df.
    destruct (emitted_scan E _ _ empty_state Hrows) as (st' & -> & _).
    cbn [bind]. eauto.
Qed.

Lemma scan_total_when_well_served_witness :
  (forall st, exists st', scan env_A_B [VStr "a"; VStr "b"] st = Ok st') /\
  exists out, sorted_results_df stable_sort env_A_B [VStr "a"; VStr "b"] = Ok out.
Proof.
  apply scan_total_when_well_served.
  intros s [Hs|[Hs|[]]]; inversion Hs; split;
    eexists; (split; [reflexivity|]); intros _; eexists; repeat split; reflexivity.
Defined.

Lemma process_ticker_exn (E : env) (s : string) (st : state) (e : exn) :
  answers E (short_term_URL E (Py.upper s)) ->
  answers E (long_term_URL E (Py.upper s)) ->
  process_ticker E (VStr s) st = Raise e ->
  e = AttributeError \/ e = TypeError \/ e = OverflowError.
Proof.
  intros (r1 & Hr1 & Hj1) (r2 & Hr2 & Hj2). unfold process_ticker.
  rewrite Hr1. cbn [bind].
  destruct (status_code r1 =? 200) eqn:Hs1; [|discriminate].
  apply Z.eqb_eq in Hs1. destruct (Hj1 Hs1) as [d1 Hd1]. rewrite Hd1. cbn [bind].
  destruct (extract_last_price d1) as [w|err] eqn:Hx1; cbn [bind].
  2:{ intros H. inversion H; subst.
      destruct (extract_last_price_exn _ _ Hx1); auto. }
  rewrite Hr2. cbn [bind].
  destruct (status_code r2 =? 200) eqn:Hs2; [|discriminate].
  apply Z.eqb_eq in Hs2. destruct (Hj2 Hs2) as [d2 Hd2]. rewrite Hd2. cbn [bind].
  destruct (extract_last_price d2) as [y|err] eqn:Hx2; cbn [bind].
  2:{ intros H. inversion H; subst.
      destruct (extract_last_price_exn _ _ Hx2); auto. }
  destruct (spread_ratio w y) as [[q|]|err] eqn:Hq; cbn [bind]; try discriminate.
  intros H. inversion H; subst.
  destruct (spread_ratio_exn _ _ _ Hq) as [_ [[-> _]|[-> _]]]; auto.
Qed.

(** X16.  When every request for the strings of the ticker list is answered,
    with a JSON body whenever the status is 200, the only exceptions that can
    end the scan are [AttributeError] and [TypeError], from a body or a price
    of another shape than expected, and [OverflowError], from an integer
    price too large for a float; the loop raises no [KeyError] and no
    [ZeroDivisionError]. *)
Theorem scan_exceptions_when_answered
        (E : env) (tickers : list value) (st : state) (e : exn) :
  (forall s, In (VStr s) tickers ->
             answers E (short_term_URL E (Py.upper s)) /\
             answers E (long_term_URL E (Py.upper s))) ->
  scan E tickers st = Raise e ->
  (e = AttributeError \/ e = TypeError \/ e = OverflowError) /\
  e <> KeyError /\ e <> ZeroDivisionError.
Proof.
  intros H Hscan.
  assert (He : e = AttributeError \/ e = TypeError \/ e = OverflowError).
  { revert st Hscan.
    induction tickers as [|t tickers IH]; intros st Hscan; [discriminate|].
    cbn [scan] in Hscan.
    destruct (process_ticker E t st) as [st1|err] eqn:Hp; cbn [bind] in Hscan.
    - apply (IH (fun s Hs => H s (or_intror Hs)) st1 Hscan).
    - inversion Hscan; subst. destruct t; try discriminate.
      destruct (H s (or_introl eq_refl)) as [Hs Hl].
      exact (process_ticker_exn _ _ _ _ Hs Hl Hp). }
  split; [exact He|].
  destruct He as [->|[->| ->]]; split; discriminate.
Qed.

Lemma scan_exceptions_when_answered_witness :
  (OverflowError = AttributeError \/ OverflowError = TypeError \/
   OverflowError = OverflowError) /\
  OverflowError <> KeyError /\ OverflowError <> ZeroDivisionError.
Proof.
  apply (scan_exceptions_when_answered
           env_huge_price [VStr "a"; VStr "b"] empty_state).
  - intros s [Hs|[Hs|[]]]; inversion Hs; split;
      eexists; (split; [reflexivity|]); intros _; eexists; reflexivity.
  - reflexivity.
Defined.

End LoopMore.

(** * More on the dates, the URLs and the ticker list *)

Section Startup.

(** X17.  Every line of the script that computes a date reads the clock
    anew.  When the four readings do not go back in time, also when midnight
    passes between them, each window still starts no later than it ends and
    the far-term window still starts after the near-term window has ended. *)
Theorem windows_disjoint_across_midnight (t1 t2 t3 t4 : Z) :
  1 <= t1 -> t1 <= t2 -> t2 <= t3 -> t3 <= t4 ->
  t4 + 600 <= Dates.MAXORDINAL ->
  exists a b c d,
    Dates.one_week_date t1 = Ok a /\ Dates.one_week_date2 t2 = Ok b /\
    Dates.one_year_date t3 = Ok c /\ Dates.one_year_date2 t4 = Ok d /\
    a <= b /\ b < c /\ c <= d.
Proof.
  intros H1 H12 H23 H34 Hmax.
  exists (t1 + 6), (t2 + 11), (t3 + 330), (t4 + 600).
  unfold Dates.one_week_date, Dates.one_week_date2,
    Dates.one_year_date, Dates.one_year_date2.
  rewrite !add_days_in_range by lia.
  repeat split; lia.
Qed.

Lemma windows_disjoint_across_midnight_witness :
  exists a b c d,
    Dates.one_week_date 739163 = Ok a /\ Dates.one_week_date2 739163 = Ok b /\
    Dates.one_year_date 739164 = Ok c /\ Dates.one_year_date2 739164 = Ok d /\
    a <= b /\ b < c /\ c <= d.
Proof.
  apply windows_disjoint_across_midnight; unfold Dates.MAXORDINAL; lia.
Defined.

Lemma string_length_append (a b : string) :
  String.length (a ++ b)%string = (String.length a + String.length b)%nat.
Proof.
  induction a as [|c a IH]; cbn [String.append String.length]; [reflexivity|].
  now rewrite IH.
Qed.

Lemma append_inj_l (prefix a b : string) :
  (prefix ++ a)%string = (prefix ++ b)%string -> a = b.
Proof.
  induction prefix as [|c prefix IH]; cbn [String.append]; intros H;
    [assumption|].
  injection H as H. auto.
Qed.

Lemma append_inj_r (a b suffix : string) :
  (a ++ suffix)%string = (b ++ suffix)%string -> a = b.
Proof.
  revert b. induction a as [|c a IH]; intros [|c' b] H; cbn [String.append] in H.
  - reflexivity.
  - apply (f_equal String.length) in H.
    cbn [String.length] in H. rewrite string_length_append in H. lia.
  - apply (f_equal String.length) in H.
    cbn [String.length] in H. rewrite string_length_append in H. lia.
  - injection H as -> H. f_equal. auto.
Qed.

(** X18.  Two different symbols never share a request: the short-term URL
    determines the symbol it was built for, and so does the long-term URL. *)
Theorem request_URL_determines_symbol (E : env) :
  (forall ticker ticker',
      short_term_URL E ticker = short_term_URL E ticker' -> ticker = ticker') /\
  (forall ticker ticker',
      long_term_URL E ticker = long_term_URL E ticker' -> ticker = ticker').
Proof.
  split; intros ticker ticker' H.
  - unfold short_term_URL in H. apply append_inj_l in H.
    now apply append_inj_r in H.
  - unfold long_term_URL in H. apply append_inj_l in H.
    now apply append_inj_r in H.
Qed.

(** X19.  When the request for the ticker file comes back with a status
    other than 200, the script prints that status, scans nothing and ends
    with an empty table, whatever the chain provider would have answered;
    when the file is read into a frame that does not have two columns, the
    script ends on [ValueError] before any ticker is scanned. *)
Theorem ticker_list_failures (S : ticker_source) :
  (forall response,
      sec_get S tickers_url = Ok response ->
      text_status_code response <> 200 ->
      fetch_all_tickers S = inr ([], Some (text_status_code response)) /\
      forall sort E,
        sorts_by_ratio sort ->
        script S sort E = Finished [] (Some (text_status_code response)) []) /\
  (forall response columns,
      sec_get S tickers_url = Ok response ->
      text_status_code response = 200 ->
      read_csv S (text response) = Some columns ->
      List.length columns <> 2%nat ->
      forall sort E, script S sort E = Startup_failed ValueError).
Proof.
  split.
  - intros response Hr Hs.
    assert (Hf : fetch_all_tickers S = inr ([], Some (text_status_code response))).
    { unfold fetch_all_tickers. rewrite Hr.
      apply Z.eqb_neq in Hs. now rewrite Hs. }
    split; [exact Hf|].
    intros sort E Hsort. unfold script. rewrite Hf. cbn.
    destruct (Hsort []) as [Hp _]. now rewrite (Permutation_nil Hp).
  - intros response columns Hr Hs Hc Hn sort E.
    unfold script, fetch_all_tickers. rewrite Hr, Hs, Hc. cbn.
    destruct columns as [|c1 [|c2 [|c3 columns]]]; try reflexivity.
    now destruct Hn.
Qed.

Lemma ticker_list_failures_witness :
  script sec_down stable_sort env_unreachable = Finished [] (Some 503) [] /\
  script sec_three_columns stable_sort env_unreachable = Startup_failed ValueError.
Proof.
  split.
  - apply (proj1 (ticker_list_failures sec_down)
                 {| text_status_code := 503; text := EmptyString |});
      [reflexivity|discriminate|apply stable_sort_sorts].
  - apply (proj2 (ticker_list_failures sec_three_columns)
                 {| text_status_code := 200; text := "a b c" |}
                 [[VStr "a"]; [VStr "b"]; [VStr "c"]]);
      [reflexivity|reflexivity|reflexivity|discriminate].
Defined.

End Startup.

(** * More on the final table *)

Section RankerMore.

(** X4.  The script leaves the kind of sort to pandas, and that only matters
    for ties: when no two accumulated rows have keys that are each below the
    other, any two sorts that put the rows in the order of the keys give the
    same final table. *)
Theorem sorted_table_unique_without_ties
        (sort sort' : list row -> list row) (E : env) (tickers : list value)
        (st : state) :
  sorts_by_ratio sort ->
  sorts_by_ratio sort' ->
  scan E tickers empty_state = Ok st ->
  (forall r r', In r (results_df st) -> In r' (results_df st) ->
                row_le r r' -> row_le r' r -> r = r') ->
  sort (results_df st) = sort' (results_df st) /\
  sorted_results_df sort E tickers = sorted_results_df sort' E tickers.
Proof.
  intros Hsort Hsort' Hscan Hties.
  destruct (sorted_results_df_of_scan sort E tickers st Hsort Hscan) as (Hr & Hp & Hs).
  destruct (sorted_results_df_of_scan sort' E tickers st Hsort' Hscan) as (Hr' & Hp' & Hs').
  assert (Heq : sort (results_df st) = sort' (results_df st)).
  { apply sorted_permutation_unique.
    - apply Sorted_StronglySorted; [apply row_le_trans|assumption].
    - apply Sorted_StronglySorted; [apply row_le_trans|assumption].
    - now rewrite <- Hp.
    - intros r r' Hin Hin'.
      apply Hties; apply (Permutation_in _ (Permutation_sym Hp)); assumption. }
  split; [exact Heq|]. now rewrite Hr, Hr', Heq.
Qed.

Lemma sorted_table_unique_without_ties_witness :
  stable_sort [row_A; row_B] = tie_reversing_sort [row_A; row_B] /\
  sorted_results_df stable_sort env_A_B [VStr "a"; VStr "b"]
  = sorted_results_df tie_reversing_sort env_A_B [VStr "a"; VStr "b"].
Proof.
  apply (sorted_table_unique_without_ties
           stable_sort tie_reversing_sort env_A_B [VStr "a"; VStr "b"]
           {| results_df := [row_A; row_B]; stdout := [] |}
           stable_sort_sorts tie_reversing_sort_sorts eq_refl).
  intros r r' [<-|[<-|[]]] [<-|[<-|[]]] H H'; try reflexivity; discriminate.
Defined.

End RankerMore.
